(** * astrolog: celestial objects, coordinate queries and the daily transit search

    A shallow embedding of [src/astrolog/celestials.py].

    The module is a coordination layer around the Swiss Ephemeris binding
    ([import swisseph as swe]).  Each [swe.*] function the module calls is an
    effect here: a program is a finite tree of engine calls, and an engine is
    any handler giving each call an answer (or an engine error) while it
    threads its own state.  Python exceptions are explicit, objects are
    attribute dictionaries, and Python floats are an interface with two
    instances: IEEE binary64 (what CPython runs) and exact rationals. *)

From Stdlib Require Import ZArith QArith Qround Qpower Lia Lqa Bool.
From Stdlib Require Import Uint63 PrimFloat SpecFloat FloatOps FloatAxioms.
From stdpp Require Import gmap strings.

Local Open Scope Z_scope.

(** ** Python values and exceptions *)

(** The values an attribute of a celestial object holds. *)
Inductive pyval :=
| VInt (i : Z)
| VStr (s : string).

Inductive exn :=
| Exception (msg : string)          (* raise Exception('Unknown planet %s' % name) *)
| AttributeError (attr : string)    (* a missing instance attribute *)
| ValueError                        (* int() of a NaN *)
| OverflowError                     (* int() of an infinity, timedelta out of range *)
| swe_Error (msg : string).         (* a failure reported by the engine *)

(** A computation that returns or raises, and its sequencing. *)
Definition ebind {A B} (x : exn + A) (f : A -> exn + B) : exn + B :=
  match x with
  | inl e => inl e
  | inr a => f a
  end.

Notation "'let?' x ':=' p 'in' q" := (ebind p (fun x => q))
  (at level 10, x pattern, p at level 100, q at level 200, only parsing).

(** ** Python floats *)

(** The float operations the module uses.  [of_int] is [float(i)] (the
    conversion Python applies when an [int] meets a [float] in arithmetic and
    the reading of a literal such as [60.]), [int_div] is true division of two
    ints ([int(minutes) / 60]), and [int_of] is [int(x)]: truncation toward
    zero, which raises OverflowError on an infinity and ValueError on a NaN. *)
Class PyFloat (F : Type) := {
  of_int : Z -> F;
  fadd : F -> F -> F;
  fsub : F -> F -> F;
  fmul : F -> F -> F;
  fdiv : F -> F -> F;
  int_div : Z -> Z -> F;
  int_of : F -> exn + Z;
}.

(** Truncation toward zero of [m * 2^e], for a positive mantissa. *)
Definition trunc_mag (m : positive) (e : Z) : Z :=
  if 0 <=? e then Z.shiftl (Z.pos m) e else Z.shiftr (Z.pos m) (- e).

(** [float(i)]: the binary64 nearest to [i], ties to even; below 2^53 in
    magnitude every int is a double and the conversion is exact.  (Python
    raises OverflowError from 2^1024 on; the ints converted in this module
    are datetime fields, literals and truncations of doubles, all far
    below.) *)
Definition float_of_int (i : Z) : float :=
  if Z.abs i <? 2 ^ 53 then
    let m := PrimFloat.of_uint63 (Uint63.of_Z (Z.abs i)) in
    if i <? 0 then PrimFloat.opp m else m
  else SF2Prim (binary_normalize prec emax i 0 false).

Definition float_int_of (x : float) : exn + Z :=
  match Prim2SF x with
  | S754_zero _ => inr 0
  | S754_finite s m e => inr (if s then - trunc_mag m e else trunc_mag m e)
  | S754_infinity _ => inl OverflowError
  | S754_nan => inl ValueError
  end.

(** IEEE 754 binary64, through Rocq's primitive floats.  CPython divides two
    ints that are exactly representable as doubles by converting both and
    dividing. *)
#[export] Instance binary64 : PyFloat float := {|
  of_int := float_of_int;
  fadd := PrimFloat.add;
  fsub := PrimFloat.sub;
  fmul := PrimFloat.mul;
  fdiv := PrimFloat.div;
  int_div := fun a b => PrimFloat.div (float_of_int a) (float_of_int b);
  int_of := float_int_of;
|}.

(** The exact value of a double, when it is finite. *)
Definition float_value (x : float) : option Q :=
  match Prim2SF x with
  | S754_zero _ => Some 0%Q
  | S754_finite s m e =>
      let mag := if 0 <=? e then inject_Z (Z.shiftl (Z.pos m) e)
                 else Qmake (Z.pos m) (2 ^ Z.to_pos (- e)) in
      Some (if s then Qopp mag else mag)
  | S754_infinity _ => None
  | S754_nan => None
  end.

(** ** [datetime] and [timedelta] *)

Record datetime := {
  year : Z; month : Z; day : Z;
  hour : Z; minute : Z; second : Z; microsecond : Z;
}.

(** [datetime.timedelta], normalised as CPython stores it. *)
Record timedelta := {
  td_days : Z; td_seconds : Z; td_microseconds : Z;
}.

(** [timedelta(hours=h, minutes=m, seconds=s)] on ints: exact, with the
    seconds carried into days, and OverflowError beyond 999999999 days. *)
Definition timedelta_new (h m s : Z) : exn + timedelta :=
  let total := h * 3600 + m * 60 + s in
  let d := total / 86400 in
  if (Z.abs d >? 999999999) then inl OverflowError
  else inr {| td_days := d; td_seconds := total mod 86400; td_microseconds := 0 |}.

Definition total_seconds (td : timedelta) : Z :=
  td_days td * 86400 + td_seconds td.

(** ** The ephemeris engine *)

(** The coordinate types of the package ([from . import GeoLocation, EclCoord,
    EquatorCoord, HorCoord]).  Their declarations are not part of this module,
    so the constructors and the two accessors the module uses are taken as an
    interface. *)
Class Coords (F : Type) := {
  EclCoordT : Type;
  EquatorCoordT : Type;
  HorCoordT : Type;
  EclCoord : F -> F -> EclCoordT;
  EquatorCoord : F -> F -> EquatorCoordT;
  HorCoord : F -> F -> HorCoordT;
  ra_degrees : EquatorCoordT -> F;       (* coord.ra.degrees *)
  decl_degrees : EquatorCoordT -> F;     (* coord.decl.degrees *)
}.

(** [location.longitude.degrees] and [location.latitude.degrees]. *)
Record GeoLocation (F : Type) := {
  longitude_degrees : F;
  latitude_degrees : F;
}.
Arguments longitude_degrees {F} _.
Arguments latitude_degrees {F} _.

Module swe.

(** The constants of [swisseph] the module names.  Their values belong to
    the engine; every statement below holds for any values. *)
Class constants := {
  SUN : Z; MOON : Z; MERCURY : Z; VENUS : Z; MARS : Z; EARTH : Z;
  JUPITER : Z; SATURN : Z; URANUS : Z; NEPTUNE : Z; PLUTO : Z;
  AST_OFFSET : Z;
  FLG_SWIEPH : Z; FLG_TOPOCTR : Z; FLG_EQUATORIAL : Z;
  CALC_RISE : Z; CALC_SET : Z; CALC_MTRANSIT : Z; CALC_ITRANSIT : Z;
  BIT_DISC_CENTER : Z; BIT_FIXED_DISC_SIZE : Z;
  BIT_NO_REFRACTION : Z; BIT_ASTRO_TWILIGHT : Z;
  NODBIT_FOPOINT : Z; NODBIT_OSCU : Z;
  EQU2HOR : Z;
}.

Section Calls.
Context {F : Type}.

Definition vec3 : Type := F * F * F.
Definition vec6 : Type := F * F * F * F * F * F.
Definition vec10 : Type := F * F * F * F * F * F * F * F * F * F.

(** The engine functions the module calls, with the arguments in the
    order the module passes them. *)
Inductive call : Type :=
| set_topo (lon lat : F)
| julday (y m d : Z) (hour : F)
| revjul (jd : F)
| calc_ut (jd : F) (body : pyval) (flags : Z)
| nod_aps_ut (jd : F) (body : pyval) (method flags : Z)
| fixstar_ut (star : pyval) (jd : F) (flags : Z)
| azalt (jd : F) (flag : Z) (geopos : vec3) (atpress attemp : Z) (xin : vec3)
| rise_trans (tjdut : F) (body : pyval) (rsmi : Z) (geopos : vec3)
             (atpress attemp : Z) (flags : Z).

(** What each of them returns, in the shape the module unpacks. *)
Definition resp (c : call) : Type :=
  match c with
  | set_topo _ _ => unit
  | julday _ _ _ _ => F
  | revjul _ => Z * Z * Z * F
  | calc_ut _ _ _ => vec6 * Z
  | nod_aps_ut _ _ _ _ => vec6 * vec6 * vec6 * vec6
  | fixstar_ut _ _ _ => vec6 * string * Z
  | azalt _ _ _ _ _ _ => F * F * F
  | rise_trans _ _ _ _ _ _ _ => Z * vec10
  end.

Definition is_set_topo (c : call) : bool :=
  match c with set_topo _ _ => true | _ => false end.

Definition is_rise_trans (c : call) : bool :=
  match c with rise_trans _ _ _ _ _ _ _ => true | _ => false end.

Definition is_nod_aps_ut (c : call) : bool :=
  match c with nod_aps_ut _ _ _ _ => true | _ => false end.
End Calls.
Arguments call : clear implicits.
Arguments vec3 : clear implicits.
Arguments vec6 : clear implicits.
Arguments vec10 : clear implicits.

(** An engine: every call answers or fails with a message (raised as
    [swisseph.Error]), and may change the engine's state. *)
Definition engine (F S : Type) : Type :=
  forall c : call F, S -> (string + resp c) * S.

End swe.

(** ** Programs over the engine *)

Section Programs.
Context {F : Type}.

Inductive Prog (A : Type) : Type :=
| Ret (a : A)
| Raise (e : exn)
| Call (c : swe.call F) (k : swe.resp c -> Prog A).
Arguments Ret {A} a.
Arguments Raise {A} e.
Arguments Call {A} c k.

Fixpoint bind {A B} (p : Prog A) (f : A -> Prog B) : Prog B :=
  match p with
  | Ret a => f a
  | Raise e => Raise e
  | Call c k => Call c (fun r => bind (k r) f)
  end.

(** A single engine call. *)
Definition perform (c : swe.call F) : Prog (swe.resp c) := Call c Ret.

(** A computation that only returns or raises. *)
Definition lift {A} (x : exn + A) : Prog A :=
  match x with inl e => Raise e | inr a => Ret a end.

(** Running a program on an engine from a state: the outcome, the engine's
    final state and the calls made, in order. *)
Fixpoint exec {S A} (h : swe.engine F S) (p : Prog A) (s : S)
  : (exn + A) * S * list (swe.call F) :=
  match p with
  | Ret a => (inr a, s, [])
  | Raise e => (inl e, s, [])
  | Call c k =>
      match h c s with
      | (inl msg, s') => (inl (swe_Error msg), s', [c])
      | (inr r, s') =>
          let '(o, s'', tr) := exec h (k r) s' in (o, s'', c :: tr)
      end
  end.

Definition outcome {S A} (h : swe.engine F S) (p : Prog A) (s : S) : exn + A :=
  (exec h p s).1.1.
Definition final_state {S A} (h : swe.engine F S) (p : Prog A) (s : S) : S :=
  (exec h p s).1.2.
Definition calls {S A} (h : swe.engine F S) (p : Prog A) (s : S)
  : list (swe.call F) :=
  (exec h p s).2.

(** Every engine call the program can make, on whatever answers, satisfies
    [P]. *)
Fixpoint every_call {A} (P : swe.call F -> Prop) (p : Prog A) : Prop :=
  match p with
  | Ret _ => True
  | Raise _ => True
  | Call c k => P c /\ forall r, every_call P (k r)
  end.

(** The program cannot make a call selected by [sel]. *)
Definition never_calls {A} (sel : swe.call F -> bool) (p : Prog A) : Prop :=
  every_call (fun c => sel c = false) p.
End Programs.
Arguments Prog : clear implicits.
Arguments Ret {F A} a.
Arguments Raise {F A} e.
Arguments Call {F A} c k.

Notation "'let*' x ':=' p 'in' q" := (bind p (fun x => q))
  (at level 10, x pattern, p at level 100, q at level 200, only parsing).

(** ** Objects *)

(** The classes that can be instantiated.  [Celestial] and [Apside] are
    abstract ([Apside] leaves [swe_ecl_coord] and [swe_equator_coord]
    unimplemented), so every instance is a [Planet], a [BlackSun] (a subclass
    of [Apside]) or a [FixedCelestial]. *)
Inductive pyclass := Planet | BlackSun | FixedCelestial.

(** An instance: its class and its attribute dictionary. *)
Record pyobj := {
  class_of : pyclass;
  attrs : gmap string pyval;
}.

Definition new (c : pyclass) : pyobj := {| class_of := c; attrs := ∅ |}.

Definition setattr (self : pyobj) (a : string) (v : pyval) : pyobj :=
  {| class_of := class_of self; attrs := <[a := v]> (attrs self) |}.

Definition getattr (self : pyobj) (a : string) : exn + pyval :=
  match attrs self !! a with
  | Some v => inr v
  | None => inl (AttributeError a)
  end.

(** Private name mangling: inside the body of [class C], an identifier
    [__x] is compiled as [_C__x]. *)
Definition mangle (cls x : string) : string := "_" +:+ cls +:+ x.

(** [a or b] where [a] is an [int] or [None] and [b] may raise: [b] is
    evaluated only when [a] is falsy, which [None] and [0] both are. *)
Definition py_or (a : option Z) (b : exn + Z) : exn + Z :=
  match a with
  | Some i => if i =? 0 then b else inr i
  | None => b
  end.

Section Celestials.
Context {F : Type} {PF : PyFloat F} {CO : Coords F} {K : swe.constants}.

(** *** class Celestial *)

Definition NAMES : gmap string Z :=
  list_to_map
    [ ("SUN", swe.SUN);
      ("MOON", swe.MOON);
      ("MERCURY", swe.MERCURY);
      ("VENUS", swe.VENUS);
      ("MARS", swe.MARS);
      ("EARTH", swe.EARTH);
      ("JUPITER", swe.JUPITER);
      ("SATURN", swe.SATURN);
      ("URANUS", swe.URANUS);
      ("NEPTUNE", swe.NEPTUNE);
      ("PLUTO", swe.PLUTO);
      ("ERIS", swe.AST_OFFSET + 136199);
      ("SEDNA", swe.AST_OFFSET + 90377);
      ("QUAOAR", swe.AST_OFFSET + 50000) ].

Definition swe_id_by_name (name : string) : exn + Z :=
  match NAMES !! name with
  | None => inl (Exception ("Unknown planet " +:+ name))
  | Some swe_code => inr swe_code
  end.

(** *** Constructors *)

(** [Planet.__init__]: the attribute is [self.__swe_code] written inside
    [class Planet]. *)
Definition Planet_init (name : string) (swe_code : option Z) : exn + pyobj :=
  let self := setattr (new Planet) "name" (VStr name) in
  let? code := py_or swe_code (swe_id_by_name name) in
  inr (setattr self (mangle "Planet" "__swe_code") (VInt code)).

(** [Apside.__init__], which [BlackSun] inherits: the attribute is
    [self.__swe_code] written inside [class Apside]. *)
Definition Apside_init (cls : pyclass) (name : string) (swe_code : option Z)
  : exn + pyobj :=
  let self := setattr (new cls) "name" (VStr name) in
  let? code := py_or swe_code (swe_id_by_name name) in
  inr (setattr self (mangle "Apside" "__swe_code") (VInt code)).

Definition BlackSun_init : string -> option Z -> exn + pyobj :=
  Apside_init BlackSun.

Definition FixedCelestial_init (name swe_code : string) : pyobj :=
  let self := setattr (new FixedCelestial) "name" (VStr name) in
  setattr self (mangle "FixedCelestial" "__swe_code") (VStr swe_code).

(** *** Methods of the variants *)

Definition is_fixed (self : pyobj) : bool :=
  match class_of self with
  | Planet => false
  | BlackSun => false            (* Apside.is_fixed *)
  | FixedCelestial => true
  end.

Definition is_focal_point (self : pyobj) : bool :=
  match class_of self with
  | Planet => false
  | BlackSun => true             (* Apside.is_focal_point *)
  | FixedCelestial => false
  end.

Definition swe_id (self : pyobj) : exn + pyval :=
  match class_of self with
  | Planet => getattr self (mangle "Planet" "__swe_code")
  | BlackSun => getattr self (mangle "Apside" "__swe_code")   (* Apside.swe_id *)
  | FixedCelestial => getattr self (mangle "FixedCelestial" "__swe_code")
  end.

Definition Planet_swe_ecl_coord (self : pyobj) (jd : F) : Prog F EclCoordT :=
  let* code := lift (getattr self (mangle "Planet" "__swe_code")) in
  let* (ecl, _) :=
    perform (swe.calc_ut jd code (Z.lor swe.FLG_SWIEPH swe.FLG_TOPOCTR)) in
  let '(e0, e1, _, _, _, _) := ecl in
  Ret (EclCoord e0 e1).

Definition Planet_swe_equator_coord (self : pyobj) (jd : F)
  : Prog F EquatorCoordT :=
  let* code := lift (getattr self (mangle "Planet" "__swe_code")) in
  let* (equator, _) :=
    perform (swe.calc_ut jd code
               (Z.lor (Z.lor swe.FLG_SWIEPH swe.FLG_TOPOCTR) swe.FLG_EQUATORIAL)) in
  let '(e0, e1, _, _, _, _) := equator in
  Ret (EquatorCoord e0 e1).

(** [BlackSun.swe_ecl_coord]: [self.__swe_code] is written inside
    [class BlackSun] here, so it reads [_BlackSun__swe_code].  The arguments
    of [swe.nod_aps_ut] are evaluated before the call is made. *)
Definition BlackSun_swe_ecl_coord (self : pyobj) (jd : F) (mean : bool)
  : Prog F EclCoordT :=
  let iflag := swe.NODBIT_FOPOINT in
  let iflag := if negb mean then Z.lor iflag swe.NODBIT_OSCU else iflag in
  let* code := lift (getattr self (mangle "BlackSun" "__swe_code")) in
  let* (_, _, _, ecl) :=
    perform (swe.nod_aps_ut jd code iflag
               (Z.lor swe.FLG_SWIEPH swe.FLG_TOPOCTR)) in
  let '(e0, e1, _, _, _, _) := ecl in
  Ret (EclCoord e0 e1).

Definition BlackSun_swe_equator_coord (self : pyobj) (jd : F) (mean : bool)
  : Prog F EquatorCoordT :=
  let iflag := swe.NODBIT_FOPOINT in
  let iflag := if negb mean then Z.lor iflag swe.NODBIT_OSCU else iflag in
  let* code := lift (getattr self (mangle "BlackSun" "__swe_code")) in
  let* (_, _, _, equator) :=
    perform (swe.nod_aps_ut jd code iflag
               (Z.lor (Z.lor swe.FLG_SWIEPH swe.FLG_TOPOCTR) swe.FLG_EQUATORIAL)) in
  let '(e0, e1, _, _, _, _) := equator in
  Ret (EquatorCoord e0 e1).

Definition FixedCelestial_swe_ecl_coord (self : pyobj) (jd : F)
  : Prog F EclCoordT :=
  let* code := lift (getattr self (mangle "FixedCelestial" "__swe_code")) in
  let* (ecl, _, _) :=
    perform (swe.fixstar_ut code jd (Z.lor swe.FLG_SWIEPH swe.FLG_TOPOCTR)) in
  let '(e0, e1, _, _, _, _) := ecl in
  Ret (EclCoord e0 e1).

Definition FixedCelestial_swe_equator_coord (self : pyobj) (jd : F)
  : Prog F EquatorCoordT :=
  let* code := lift (getattr self (mangle "FixedCelestial" "__swe_code")) in
  let* (equator, _, _) :=
    perform (swe.fixstar_ut code jd
               (Z.lor (Z.lor swe.FLG_SWIEPH swe.FLG_TOPOCTR) swe.FLG_EQUATORIAL)) in
  let '(e0, e1, _, _, _, _) := equator in
  Ret (EquatorCoord e0 e1).

(** [self.swe_ecl_coord(jd)] as [Celestial] calls it: one positional
    argument, so a [BlackSun] receives the default [mean=False]. *)
Definition swe_ecl_coord (self : pyobj) (jd : F) : Prog F EclCoordT :=
  match class_of self with
  | Planet => Planet_swe_ecl_coord self jd
  | BlackSun => BlackSun_swe_ecl_coord self jd false
  | FixedCelestial => FixedCelestial_swe_ecl_coord self jd
  end.

Definition swe_equator_coord (self : pyobj) (jd : F) : Prog F EquatorCoordT :=
  match class_of self with
  | Planet => Planet_swe_equator_coord self jd
  | BlackSun => BlackSun_swe_equator_coord self jd false
  | FixedCelestial => FixedCelestial_swe_equator_coord self jd
  end.

(** *** Coordinate queries *)

(** [time.hour + time.minute / 60.] *)
Definition hour_of (time : datetime) : F :=
  fadd (of_int (hour time)) (fdiv (of_int (minute time)) (of_int 60)).

Definition ecl_coord (self : pyobj) (time : datetime) (location : GeoLocation F)
  : Prog F EclCoordT :=
  let* _ := perform (swe.set_topo (longitude_degrees location)
                                  (latitude_degrees location)) in
  let* jd := perform (swe.julday (year time) (month time) (day time)
                                 (hour_of time)) in
  swe_ecl_coord self jd.

Definition equator_coord (self : pyobj) (time : datetime)
  (location : GeoLocation F) : Prog F EquatorCoordT :=
  let* _ := perform (swe.set_topo (longitude_degrees location)
                                  (latitude_degrees location)) in
  let* jd := perform (swe.julday (year time) (month time) (day time)
                                 (hour_of time)) in
  swe_equator_coord self jd.

Definition hor_coord (self : pyobj) (time : datetime) (location : GeoLocation F)
  : Prog F HorCoordT :=
  let* _ := perform (swe.set_topo (longitude_degrees location)
                                  (latitude_degrees location)) in
  let* jd := perform (swe.julday (year time) (month time) (day time)
                                 (hour_of time)) in
  let* coord := swe_equator_coord self jd in
  let geopos := (longitude_degrees location, latitude_degrees location,
                 of_int 0) in
  let pos := (ra_degrees coord, decl_degrees coord, of_int 0) in
  let atpress := 0 in
  let attemp := 0 in
  let* (azimuth, true_alt, app_alt) :=
    perform (swe.azalt jd swe.EQU2HOR geopos atpress attemp pos) in
  Ret (HorCoord azimuth true_alt).

(** *** The transit search *)

(** The four modifier bits or-ed into the event kind. *)
Definition rise_modifiers : Z :=
  Z.lor (Z.lor (Z.lor swe.BIT_DISC_CENTER swe.BIT_FIXED_DISC_SIZE)
               swe.BIT_NO_REFRACTION)
        swe.BIT_ASTRO_TWILIGHT.

(** Lines 90 to 93: the time of day as hours, minutes and seconds.  No
    engine call is involved; [int()] and [timedelta] may raise. *)
Definition hms (tm : F) : exn + timedelta :=
  let? hours := int_of tm in
  let minutes := fmul (fsub tm (of_int hours)) (of_int 60) in
  let? int_minutes := int_of minutes in
  let seconds :=
    fmul (fmul (fsub (fsub tm (of_int hours)) (int_div int_minutes 60))
               (of_int 60))
         (of_int 60) in
  let? int_seconds := int_of seconds in
  timedelta_new hours int_minutes int_seconds.

(** Lines 87 to 93: what is done with the time the search returned. *)
Definition day_check (when : datetime) (jultime : F)
  : Prog F (option timedelta) :=
  let* (year', month', day', tm) := perform (swe.revjul jultime) in
  if negb (year' =? year when) || negb (month' =? month when)
     || negb (day' =? day when)
  then Ret None
  else let* td := lift (hms tm) in Ret (Some td).

(** [Celestial.__rise_trans] *)
Definition Celestial__rise_trans (self : pyobj) (when : datetime)
  (location : GeoLocation F) (rsmi : Z) : Prog F (option timedelta) :=
  if is_focal_point self then Ret None
  else
    let* tjdut := perform (swe.julday (year when) (month when) (day when)
                                      (of_int 0)) in
    let flags := Z.lor swe.FLG_SWIEPH swe.FLG_TOPOCTR in
    let rsmi := Z.lor rsmi rise_modifiers in
    let lon := longitude_degrees location in
    let lat := latitude_degrees location in
    let alt := of_int 0 in
    let atpress := 0 in
    let attemp := 0 in
    let* body := lift (swe_id self) in
    let* (found, (jultime, _, _, _, _, _, _, _, _, _)) :=
      perform (swe.rise_trans tjdut body rsmi (lon, lat, alt)
                              atpress attemp flags) in
    if negb (found =? 0) then Ret None
    else day_check when jultime.

Definition rises (self : pyobj) (time : datetime) (location : GeoLocation F) :=
  Celestial__rise_trans self time location swe.CALC_RISE.

Definition sets (self : pyobj) (time : datetime) (location : GeoLocation F) :=
  Celestial__rise_trans self time location swe.CALC_SET.

Definition mc_trans (self : pyobj) (time : datetime) (location : GeoLocation F) :=
  Celestial__rise_trans self time location swe.CALC_MTRANSIT.

Definition ic_trans (self : pyobj) (time : datetime) (location : GeoLocation F) :=
  Celestial__rise_trans self time location swe.CALC_ITRANSIT.

(** [Celestial.transits]: the dict display evaluates its four values in the
    order written. *)
Definition transits (self : pyobj) (time : datetime) (location : GeoLocation F)
  : Prog F (gmap string (option timedelta)) :=
  let* r := rises self time location in
  let* s := sets self time location in
  let* m := mc_trans self time location in
  let* i := ic_trans self time location in
  Ret (<["ic" := i]> (<["mc" := m]> (<["set" := s]> (<["rise" := r]> ∅)))).

End Celestials.

(** ** Concrete instances, used to run the model *)

(** The values of the Swiss Ephemeris header [swephexp.h]. *)
Definition swisseph : swe.constants := {|
  swe.SUN := 0; swe.MOON := 1; swe.MERCURY := 2; swe.VENUS := 3; swe.MARS := 4;
  swe.EARTH := 14;
  swe.JUPITER := 5; swe.SATURN := 6; swe.URANUS := 7; swe.NEPTUNE := 8;
  swe.PLUTO := 9;
  swe.AST_OFFSET := 10000;
  swe.FLG_SWIEPH := 2; swe.FLG_TOPOCTR := 32768; swe.FLG_EQUATORIAL := 2048;
  swe.CALC_RISE := 1; swe.CALC_SET := 2; swe.CALC_MTRANSIT := 4;
  swe.CALC_ITRANSIT := 8;
  swe.BIT_DISC_CENTER := 256; swe.BIT_FIXED_DISC_SIZE := 16384;
  swe.BIT_NO_REFRACTION := 512; swe.BIT_ASTRO_TWILIGHT := 4096;
  swe.NODBIT_FOPOINT := 256; swe.NODBIT_OSCU := 2;
  swe.EQU2HOR := 1;
|}.

(** Coordinates as plain pairs of degrees. *)
Definition pair_coords (F : Type) : Coords F := {|
  EclCoordT := F * F;
  EquatorCoordT := F * F;
  HorCoordT := F * F;
  EclCoord := pair;
  EquatorCoord := pair;
  HorCoord := pair;
  ra_degrees := fst;
  decl_degrees := snd;
|}.

(** An engine with canned answers: its state is the observer frame last set;
    the search answers with the flag [found] and an event time, which
    [revjul] turns into the date [ymd] and the time of day [tm]; positions
    are built from the frame and the time asked. *)
Definition canned {F : Type} {PF : PyFloat F} (found : Z) (ymd : Z * Z * Z) (tm : F)
  : swe.engine F (F * F) :=
  fun c =>
    match c return F * F -> (string + swe.resp c) * (F * F) with
    | swe.set_topo lon lat => fun _ => (inr tt, (lon, lat))
    | swe.julday y m d hr => fun s => (inr (fadd (of_int (y * 372 + m * 31 + d)) hr), s)
    | swe.revjul jd => fun s => (inr (ymd, tm), s)
    | swe.calc_ut jd _ fl => fun s => (inr ((s.1, s.2, jd, jd, jd, jd), fl), s)
    | swe.nod_aps_ut jd _ _ _ =>
        fun s => let v := (s.1, s.2, jd, jd, jd, jd) in (inr (v, v, v, v), s)
    | swe.fixstar_ut _ jd fl =>
        fun s => (inr ((s.1, s.2, jd, jd, jd, jd), "star"%string, fl), s)
    | swe.azalt jd _ g _ _ x => fun s => (inr (fadd x.1.1 g.1.1, fadd x.1.2 g.1.2, jd), s)
    | swe.rise_trans t _ _ _ _ _ _ =>
        fun s => (inr (found, (fadd t tm, t, t, t, t, t, t, t, t, t)), s)
    end.

Definition noon : datetime :=
  {| year := 2024; month := 3; day := 15;
     hour := 12; minute := 30; second := 0; microsecond := 0 |}.

Definition noon_later : datetime :=
  {| year := 2024; month := 3; day := 15;
     hour := 12; minute := 30; second := 59; microsecond := 999999 |}.

Definition evening : datetime :=
  {| year := 2024; month := 3; day := 15;
     hour := 21; minute := 5; second := 7; microsecond := 0 |}.

Definition observer64 : GeoLocation float :=
  {| longitude_degrees := 0x1.2ep+5%float; latitude_degrees := 0x1.be8p+5%float |}.

(** [Planet("MARS")], [BlackSun("BS Earth", swe.EARTH)] and
    [FixedCelestial("Sirius", "Sirius")] as their constructors leave them. *)
Definition Mars : pyobj :=
  setattr (setattr (new Planet) "name" (VStr "MARS"))
          "_Planet__swe_code" (VInt 4).

Definition BS_Earth : pyobj :=
  setattr (setattr (new BlackSun) "name" (VStr "BS Earth"))
          "_Apside__swe_code" (VInt 14).

Definition Sirius : pyobj :=
  setattr (setattr (new FixedCelestial) "name" (VStr "Sirius"))
          "_FixedCelestial__swe_code" (VStr "Sirius").

(** ** Vocabulary of the statements *)

Section Vocabulary.
Context {F : Type} {PF : PyFloat F} {K : swe.constants}.
Context {S : Type} (h : swe.engine F S).

(** An engine in which only [set_topo] changes the state: the observer
    frame is its whole mutable state. *)
Definition frame_only : Prop :=
  forall (c : swe.call F) (s : S), swe.is_set_topo c = false -> (h c s).2 = s.

(** Setting the frame it already has changes nothing in the engine and
    answers as before. *)
Definition set_topo_settles : Prop :=
  forall (lon lat : F) (s : S),
    h (swe.set_topo lon lat) (h (swe.set_topo lon lat) s).2
    = h (swe.set_topo lon lat) s.

(** [tret[0]], the event time among the ten values the search returns. *)
Definition tret0 (t : swe.vec10 F) : F :=
  let '(jultime, _, _, _, _, _, _, _, _, _) := t in jultime.

(** The query of [self] for the day of [when] at [location], event kind
    [kind], run from state [s], reaches the engine's search, which answers
    [r] and leaves the engine in state [s2]. *)
Definition search_answers (self : pyobj) (when : datetime)
  (location : GeoLocation F) (kind : Z) (s : S)
  (r : string + Z * swe.vec10 F) (s2 : S) : Prop :=
  exists (tjdut : F) (s1 : S) (body : pyval),
    h (swe.julday (year when) (month when) (day when) (of_int 0)) s
    = (inr tjdut, s1)
    /\ swe_id self = inr body
    /\ h (swe.rise_trans tjdut body (Z.lor kind rise_modifiers)
                         (longitude_degrees location,
                          latitude_degrees location, of_int 0)
                         0 0 (Z.lor swe.FLG_SWIEPH swe.FLG_TOPOCTR)) s1
       = (r, s2).

(** The engine converts the event time [jultime] back to the calendar date
    [y]-[m]-[d] and the time of day [tm] (in hours). *)
Definition converts_back (jultime : F) (s2 : S) (y m d : Z) (tm : F) (s3 : S)
  : Prop :=
  h (swe.revjul jultime) s2 = (inr (y, m, d, tm), s3).

End Vocabulary.

(** The four event kinds, named by their keys in the mapping of [transits]. *)
Inductive event := rise | set | mc | ic.

Section Events.
Context {F : Type} {PF : PyFloat F} {K : swe.constants}.

Definition kind_of (e : event) : Z :=
  match e with
  | rise => swe.CALC_RISE
  | set => swe.CALC_SET
  | mc => swe.CALC_MTRANSIT
  | ic => swe.CALC_ITRANSIT
  end.

(** The individual query of an event kind. *)
Definition query (e : event)
  : pyobj -> datetime -> GeoLocation F -> Prog F (option timedelta) :=
  match e with
  | rise => rises
  | set => sets
  | mc => mc_trans
  | ic => ic_trans
  end.

Definition key_of (e : event) : string :=
  match e with
  | rise => "rise"
  | set => "set"
  | mc => "mc"
  | ic => "ic"
  end.

(** The time reference of a coordinate query. *)
Definition built_from_minutes (time : datetime) (c : swe.call F) : Prop :=
  match c with
  | swe.julday y m d hr =>
      y = year time /\ m = month time /\ d = day time
      /\ hr = fadd (of_int (hour time)) (fdiv (of_int (minute time)) (of_int 60))
  | _ => True
  end.

(** The conversion to the horizon of [hor_coord]. *)
Definition converts_for (location : GeoLocation F) (c : swe.call F) : Prop :=
  match c with
  | swe.azalt _ flag geopos atpress attemp _ =>
      flag = swe.EQU2HOR
      /\ geopos = (longitude_degrees location, latitude_degrees location, of_int 0)
      /\ atpress = 0 /\ attemp = 0
  | _ => True
  end.
End Events.

(** The mapping [transits] builds from four results. *)
Definition transit_dict (r s m i : option timedelta)
  : gmap string (option timedelta) :=
  <["ic" := i]> (<["mc" := m]> (<["set" := s]> (<["rise" := r]> ∅))).

(** The duration in hours, as an exact rational. *)
Definition hours_of (td : timedelta) : Q := (total_seconds td # 3600)%Q.

(** The double [k / 3600] (the time of day of the [k]-th second, in hours) is
    decomposed into [k] seconds or one less. *)
Definition whole_second_ok (k : Z) : bool :=
  match @hms float binary64 (int_div k 3600) with
  | inr td => (k - 1 <=? total_seconds td) && (total_seconds td <=? k)
  | inl _ => false
  end.

(** [f] holds at the [n] integers from [k] on. *)
Fixpoint holds_from (f : Z -> bool) (n : nat) (k : Z) : bool :=
  match n with
  | O => true
  | Datatypes.S n' => f k && holds_from f n' (k + 1)
  end.

(** ** General facts about programs *)

Section ProgramFacts.
Context {F S : Type} (h : swe.engine F S).

Lemma exec_bind {A B} (p : Prog F A) (f : A -> Prog F B) (s : S) :
  exec h (bind p f) s =
  match exec h p s with
  | (inr a, s', tr) =>
      let '(o, s'', tr') := exec h (f a) s' in (o, s'', tr ++ tr')
  | (inl e, s', tr) => (inl e, s', tr)
  end.
Proof.
  revert s; induction p as [a | e | c k IH]; intros s; cbn [bind exec].
  - destruct (exec h (f a) s) as [[o s''] tr']; reflexivity.
  - reflexivity.
  - destruct (h c s) as [[msg | r] s']; [reflexivity |].
    rewrite IH.
    destruct (exec h (k r) s') as [[[e | a] s''] tr]; [reflexivity |].
    destruct (exec h (f a) s'') as [[o s3] tr']; reflexivity.
Qed.

Lemma exec_call_ok {A} (c : swe.call F) (k : swe.resp c -> Prog F A)
  (s s' : S) (r : swe.resp c) :
  h c s = (inr r, s') ->
  exec h (Call c k) s =
  (let '(o, s'', tr) := exec h (k r) s' in (o, s'', c :: tr)).
Proof. intros E; cbn [exec]; rewrite E; reflexivity. Qed.

Lemma exec_call_fail {A} (c : swe.call F) (k : swe.resp c -> Prog F A)
  (s s' : S) (msg : string) :
  h c s = (inl msg, s') ->
  exec h (Call c k) s = (inl (swe_Error msg), s', [c]).
Proof. intros E; cbn [exec]; rewrite E; reflexivity. Qed.

(** A program that never sets the frame leaves such an engine as it was. *)
Lemma frame_only_state {A} (p : Prog F A) (s : S) :
  frame_only h -> never_calls swe.is_set_topo p -> final_state h p s = s.
Proof.
  intros Hfo; revert s; unfold final_state, never_calls.
  induction p as [a | e | c k IH]; intros s Hn; cbn [exec]; try reflexivity.
  destruct Hn as [Hc Hk].
  pose proof (Hfo c s Hc) as Hs.
  destruct (h c s) as [[msg | r] s']; cbn in Hs; subst s'; [reflexivity |].
  specialize (IH r s (Hk r)).
  destruct (exec h (k r) s) as [[o s''] tr]; exact IH.
Qed.

(** The calls of a run are calls of the program. *)
Lemma every_call_run {A} (P : swe.call F -> Prop) (p : Prog F A) (s : S) :
  every_call P p -> Forall P (calls h p s).
Proof.
  revert s; unfold calls.
  induction p as [a | e | c k IH]; intros s Hp; cbn [exec];
    try (constructor; fail).
  destruct Hp as [Hc Hk].
  destruct (h c s) as [[msg | r] s']; [repeat constructor; exact Hc |].
  specialize (IH r s' (Hk r)).
  destruct (exec h (k r) s') as [[o s''] tr]; constructor; assumption.
Qed.

Lemma every_call_bind {A B} P (p : Prog F A) (f : A -> Prog F B) :
  every_call P p -> (forall a, every_call P (f a)) ->
  every_call P (bind p f).
Proof.
  intros Hp Hf; induction p as [a | e | c k IH]; cbn [bind every_call] in *.
  - apply Hf.
  - exact I.
  - destruct Hp as [Hc Hk]; split; [exact Hc | intros r; apply IH, Hk].
Qed.

Lemma every_call_lift {A} P (x : exn + A) : every_call P (@lift F A x).
Proof. destruct x; exact I. Qed.

Lemma every_call_perform P (c : swe.call F) : P c -> every_call P (perform c).
Proof. intros Hc; split; [exact Hc | intros r; exact I]. Qed.
End ProgramFacts.

(** ** The transit search *)

Section TransitSearch.
Context {F : Type} {PF : PyFloat F} {K : swe.constants}.

Lemma query_rise_trans (e : event) self when (location : GeoLocation F) :
  query e self when location
  = Celestial__rise_trans self when location (kind_of e).
Proof. destruct e; reflexivity. Qed.

Lemma rise_trans_focal self when (location : GeoLocation F) rsmi :
  is_focal_point self = true ->
  Celestial__rise_trans self when location rsmi = Ret None.
Proof. intros Hf; unfold Celestial__rise_trans; rewrite Hf; reflexivity. Qed.

Lemma rise_trans_same_day self (when when' : datetime)
  (location : GeoLocation F) rsmi :
  year when' = year when -> month when' = month when -> day when' = day when ->
  Celestial__rise_trans self when' location rsmi
  = Celestial__rise_trans self when location rsmi.
Proof.
  intros Hy Hm Hd.
  unfold Celestial__rise_trans, day_check.
  rewrite Hy, Hm, Hd; reflexivity.
Qed.

Lemma rise_modifiers_bits (kind n : Z) :
  Z.testbit (Z.lor kind rise_modifiers) n
  = Z.testbit kind n
    || Z.testbit swe.BIT_DISC_CENTER n
    || Z.testbit swe.BIT_FIXED_DISC_SIZE n
    || Z.testbit swe.BIT_NO_REFRACTION n
    || Z.testbit swe.BIT_ASTRO_TWILIGHT n.
Proof.
  unfold rise_modifiers; rewrite !Z.lor_spec, !orb_assoc; reflexivity.
Qed.

Section OnAnEngine.
Context {S : Type} (h : swe.engine F S).

(** What the day check makes of the date the engine converts back. *)
Lemma exec_day_check when jultime s2 y m d tm s3 :
  converts_back h jultime s2 y m d tm s3 ->
  exec h (day_check when jultime) s2
  = (if negb (y =? year when) || negb (m =? month when)
        || negb (d =? day when)
     then inr None
     else match hms tm with
          | inl e => inl e
          | inr td => inr (Some td)
          end,
     s3, [swe.revjul jultime]).
Proof.
  intros Hrev; unfold day_check, perform; cbn [bind].
  rewrite (exec_call_ok h _ _ _ _ _ Hrev).
  destruct (negb (y =? year when) || negb (m =? month when)
            || negb (d =? day when)); [reflexivity |].
  destruct (hms tm) as [e | td]; reflexivity.
Qed.

Lemma exec_day_check_fail when jultime s2 msg s3 :
  h (swe.revjul jultime) s2 = (inl msg, s3) ->
  exec h (day_check when jultime) s2
  = (inl (swe_Error msg), s3, [swe.revjul jultime]).
Proof.
  intros Hrev; unfold day_check, perform; cbn [bind].
  apply exec_call_fail, Hrev.
Qed.

(** The run of the search up to the engine's answer. *)
Lemma exec_rise_trans self when (location : GeoLocation F) kind s tjdut s1
  body r s2 :
  is_focal_point self = false ->
  h (swe.julday (year when) (month when) (day when) (of_int 0)) s
  = (inr tjdut, s1) ->
  swe_id self = inr body ->
  h (swe.rise_trans tjdut body (Z.lor kind rise_modifiers)
                    (longitude_degrees location, latitude_degrees location,
                     of_int 0)
                    0 0 (Z.lor swe.FLG_SWIEPH swe.FLG_TOPOCTR)) s1
  = (r, s2) ->
  exec h (Celestial__rise_trans self when location kind) s
  = let c1 := swe.julday (year when) (month when) (day when) (of_int 0) in
    let c2 := swe.rise_trans tjdut body (Z.lor kind rise_modifiers)
                (longitude_degrees location, latitude_degrees location,
                 of_int 0)
                0 0 (Z.lor swe.FLG_SWIEPH swe.FLG_TOPOCTR) in
    match r with
    | inl msg => (inl (swe_Error msg), s2, [c1; c2])
    | inr (found, tret) =>
        if negb (found =? 0) then (inr None, s2, [c1; c2])
        else let '(o, s3, tr) := exec h (day_check when (tret0 tret)) s2 in
             (o, s3, c1 :: c2 :: tr)
    end.
Proof.
  intros Hf Hjd Hid Hrt.
  unfold Celestial__rise_trans, perform; rewrite Hf, Hid; cbn [bind lift].
  rewrite (exec_call_ok h _ _ _ _ _ Hjd).
  destruct r as [msg | [found tret]].
  - rewrite (exec_call_fail h _ _ _ _ _ Hrt); reflexivity.
  - rewrite (exec_call_ok h _ _ _ _ _ Hrt).
    destruct tret as [[[[[[[[[j ?] ?] ?] ?] ?] ?] ?] ?] ?]; cbn [tret0].
    destruct (negb (found =? 0)); [reflexivity |].
    destruct (exec h (day_check when j) s2) as [[o s3] tr]; reflexivity.
Qed.
End OnAnEngine.
End TransitSearch.

Section TransitClaims.
Context {F : Type} {PF : PyFloat F} {K : swe.constants}.

(** C1.  For an object whose [is_focal_point()] is true, each of the four
    transit queries returns [None] at any instant and for any observer, on
    any engine and from any engine state, without a single engine call (the
    trace is empty and the engine state untouched, so [rise_trans] is never
    invoked); the mapping of [transits] has the four keys, every one mapped
    to [None], and is built without an engine call either. *)
Theorem focal_point_has_no_transits (self : pyobj) (time : datetime)
  (location : GeoLocation F) (S : Type) (h : swe.engine F S) (s : S) :
  is_focal_point self = true ->
  (forall e : event, exec h (query e self time location) s = (inr None, s, []))
  /\ exec h (transits self time location) s
     = (inr (transit_dict None None None None), s, [])
  /\ (forall e : event,
        transit_dict None None None None !! key_of e = Some None)
  /\ never_calls swe.is_rise_trans (transits self time location).
Proof.
  intros Hf.
  assert (Hq : forall e, query e self time location = Ret None).
  { intros e; rewrite query_rise_trans; apply rise_trans_focal, Hf. }
  assert (Ht : transits self time location
               = Ret (transit_dict None None None None)).
  { unfold transits.
    rewrite (Hq rise : rises _ _ _ = _), (Hq set : sets _ _ _ = _),
      (Hq mc : mc_trans _ _ _ = _), (Hq ic : ic_trans _ _ _ = _).
    reflexivity. }
  repeat split.
  - intros e; rewrite Hq; reflexivity.
  - rewrite Ht; reflexivity.
  - intros []; reflexivity.
  - rewrite Ht; exact I.
Qed.

(** C2.  When the engine's search answers with a found event (flag 0) and
    the engine converts the event time back to a calendar date that differs
    from the queried day in the year, the month or the day, the query
    returns [None]: for every object, each of the four event kinds, every
    observer, on any engine. *)
Theorem other_day_is_absent (e : event) (self : pyobj) (when : datetime)
  (location : GeoLocation F) (S : Type) (h : swe.engine F S) (s s2 s3 : S)
  (tret : swe.vec10 F) (y m d : Z) (tm : F) :
  search_answers h self when location (kind_of e) s (inr (0, tret)) s2 ->
  converts_back h (tret0 tret) s2 y m d tm s3 ->
  y <> year when \/ m <> month when \/ d <> day when ->
  outcome h (query e self when location) s = inr None.
Proof.
  intros (tjdut & s1 & body & Hjd & Hid & Hrt) Hrev Hday.
  rewrite query_rise_trans; unfold outcome.
  destruct (is_focal_point self) eqn:Hf.
  - rewrite rise_trans_focal by exact Hf; reflexivity.
  - rewrite (exec_rise_trans h _ _ _ _ _ _ _ _ _ _ Hf Hjd Hid Hrt).
    cbn [Z.eqb negb].
    rewrite (exec_day_check h _ _ _ _ _ _ _ _ Hrev).
    replace (negb (y =? year when) || negb (m =? month when)
             || negb (d =? day when)) with true; [reflexivity |].
    symmetry; rewrite !orb_true_iff, !negb_true_iff, !Z.eqb_neq.
    tauto.
Qed.

(** C6.  For an object that is not a focal point, when the engine's search
    answers "not found" (a nonzero flag) the query returns [None], a normal
    result and not an exception; the engine is left as the search left it
    and nothing is asked of it after the search (no conversion back, no
    retry).  It is the outcome of the other-day case, and it differs from
    the outcome when the search fails, which is the engine's error. *)
Theorem not_found_is_absent (e : event) (self : pyobj) (when : datetime)
  (location : GeoLocation F) (S : Type) (h : swe.engine F S) (s s2 : S)
  (found : Z) (tret : swe.vec10 F) :
  is_focal_point self = false ->
  search_answers h self when location (kind_of e) s (inr (found, tret)) s2 ->
  found <> 0 ->
  outcome h (query e self when location) s = inr None
  /\ final_state h (query e self when location) s = s2
  /\ length (calls h (query e self when location) s) = 2%nat
  /\ (forall (S' : Type) (h' : swe.engine F S') (s' s2' s3' : S')
             (tret' : swe.vec10 F) (y m d : Z) (tm : F),
        search_answers h' self when location (kind_of e) s' (inr (0, tret')) s2' ->
        converts_back h' (tret0 tret') s2' y m d tm s3' ->
        y <> year when \/ m <> month when \/ d <> day when ->
        outcome h' (query e self when location) s'
        = outcome h (query e self when location) s)
  /\ (forall (S' : Type) (h' : swe.engine F S') (s' s2' : S') (msg : string),
        search_answers h' self when location (kind_of e) s' (inl msg) s2' ->
        outcome h' (query e self when location) s' = inl (swe_Error msg)
        /\ outcome h' (query e self when location) s'
           <> outcome h (query e self when location) s).
Proof.
  intros Hf (tjdut & s1 & body & Hjd & Hid & Hrt) Hnf.
  assert (Hrun : exec h (query e self when location) s
                 = (inr None, s2,
                    [swe.julday (year when) (month when) (day when) (of_int 0);
                     swe.rise_trans tjdut body (Z.lor (kind_of e) rise_modifiers)
                       (longitude_degrees location, latitude_degrees location,
                        of_int 0)
                       0 0 (Z.lor swe.FLG_SWIEPH swe.FLG_TOPOCTR)])).
  { rewrite query_rise_trans.
    rewrite (exec_rise_trans h _ _ _ _ _ _ _ _ _ _ Hf Hjd Hid Hrt).
    cbv zeta.
    apply Z.eqb_neq in Hnf; rewrite Hnf; reflexivity. }
  unfold outcome, final_state, calls; rewrite Hrun; cbn [fst snd length].
  repeat split.
  - intros S' h' s' s2' s3' tret' y m d tm
      (tjdut' & s1' & body' & Hjd' & Hid' & Hrt') Hrev Hday.
    rewrite query_rise_trans.
    rewrite (exec_rise_trans h' _ _ _ _ _ _ _ _ _ _ Hf Hjd' Hid' Hrt').
    cbn [Z.eqb negb].
    rewrite (exec_day_check h' _ _ _ _ _ _ _ _ Hrev).
    replace (negb (y =? year when) || negb (m =? month when)
             || negb (d =? day when)) with true; [reflexivity |].
    symmetry; rewrite !orb_true_iff, !negb_true_iff, !Z.eqb_neq.
    tauto.
  - destruct H as (tjdut' & s1' & body' & Hjd' & Hid' & Hrt').
    rewrite query_rise_trans.
    rewrite (exec_rise_trans h' _ _ _ _ _ _ _ _ _ _ Hf Hjd' Hid' Hrt').
    reflexivity.
  - destruct H as (tjdut' & s1' & body' & Hjd' & Hid' & Hrt').
    rewrite query_rise_trans.
    rewrite (exec_rise_trans h' _ _ _ _ _ _ _ _ _ _ Hf Hjd' Hid' Hrt').
    discriminate.
Qed.
End TransitClaims.

Section SearchInvocation.
Context {F : Type} {PF : PyFloat F} {K : swe.constants}.

(** C7.  For an object that is not a focal point (and whose identifier
    [swe_id()] is [body]) a transit query first asks the engine for the time
    reference of the queried calendar day at hour 0, whatever the time of
    day of the instant; when that is answered with [tjdut], its next call is
    the search, started at [tjdut], for [body], with the event kind or-ed
    with [rise_modifiers], the observer's longitude and latitude with
    altitude 0, pressure 0 and temperature 0, and it is the only search call
    of the run.  The bits of the event argument are those of the kind and of
    the disc-centre, fixed-disc-size, no-refraction and astronomical-twilight
    flags, no others.  Two instants on the same calendar day run the same
    way: same outcome, same engine state, same calls, for each query and for
    the mapping of all four. *)
Theorem search_invocation (e : event) (self : pyobj) (when : datetime)
  (location : GeoLocation F) (body : pyval) (S : Type) (h : swe.engine F S)
  (s : S) :
  is_focal_point self = false ->
  swe_id self = inr body ->
  let day_start :=
    swe.julday (year when) (month when) (day when) (of_int 0) in
  (exists rest, calls h (query e self when location) s = day_start :: rest)
  /\ (forall (tjdut : F) (s1 : S),
        h day_start s = (inr tjdut, s1) ->
        exists rest,
          calls h (query e self when location) s
          = day_start
            :: swe.rise_trans tjdut body (Z.lor (kind_of e) rise_modifiers)
                 (longitude_degrees location, latitude_degrees location,
                  of_int 0)
                 0 0 (Z.lor swe.FLG_SWIEPH swe.FLG_TOPOCTR)
            :: rest
          /\ Forall (fun c => swe.is_rise_trans c = false) rest)
  /\ (forall n : Z,
        Z.testbit (Z.lor (kind_of e) rise_modifiers) n
        = Z.testbit (kind_of e) n
          || Z.testbit swe.BIT_DISC_CENTER n
          || Z.testbit swe.BIT_FIXED_DISC_SIZE n
          || Z.testbit swe.BIT_NO_REFRACTION n
          || Z.testbit swe.BIT_ASTRO_TWILIGHT n)
  /\ (forall when' : datetime,
        year when' = year when -> month when' = month when ->
        day when' = day when ->
        exec h (query e self when' location) s
        = exec h (query e self when location) s
        /\ exec h (transits self when' location) s
           = exec h (transits self when location) s).
Proof.
  intros Hf Hid day_start.
  split; [| split; [| split]].
  - rewrite query_rise_trans; unfold calls, Celestial__rise_trans, perform.
    rewrite Hf; cbn [bind exec]; fold day_start.
    destruct (h day_start s) as [[msg | tjdut] s1]; [eexists; reflexivity |].
    match goal with
    | |- context [exec h ?p s1] => destruct (exec h p s1) as [[o s'] tr]
    end.
    eexists; reflexivity.
  - intros tjdut s1 Hjd.
    rewrite query_rise_trans; unfold calls.
    destruct (h (swe.rise_trans tjdut body (Z.lor (kind_of e) rise_modifiers)
                   (longitude_degrees location, latitude_degrees location,
                    of_int 0)
                   0 0 (Z.lor swe.FLG_SWIEPH swe.FLG_TOPOCTR)) s1)
      as [r s2] eqn:Hrt.
    rewrite (exec_rise_trans h _ _ _ _ _ _ _ _ _ _ Hf Hjd Hid Hrt).
    cbv zeta; fold day_start.
    destruct r as [msg | [found tret]]; [exists []; split; [reflexivity | constructor] |].
    destruct (negb (found =? 0)); [exists []; split; [reflexivity | constructor] |].
    destruct (h (swe.revjul (tret0 tret)) s2) as [[msg | [[[y m] d] tm]] s3] eqn:Hrev.
    + rewrite (exec_day_check_fail h _ _ _ _ _ Hrev).
      eexists; split; [reflexivity |].
      repeat constructor.
    + rewrite (exec_day_check h when _ _ y m d tm s3 Hrev).
      eexists; split; [reflexivity |].
      repeat constructor.
  - intros n; apply rise_modifiers_bits.
  - intros when' Hy Hm Hd.
    assert (Hq : forall e', query e' self when' location
                            = query e' self when location).
    { intros e'; rewrite !query_rise_trans.
      apply rise_trans_same_day; assumption. }
    split; [rewrite Hq; reflexivity |].
    unfold transits.
    rewrite (Hq rise : rises _ _ _ = _), (Hq set : sets _ _ _ = _),
      (Hq mc : mc_trans _ _ _ = _), (Hq ic : ic_trans _ _ _ = _).
    reflexivity.
Qed.
End SearchInvocation.

(** ** Which calls the programs make *)

Ltac calls_of :=
  repeat first
    [ apply every_call_lift
    | apply every_call_perform
    | apply every_call_bind; [| intros ?]
    | match goal with
      | |- every_call _ (Ret _) => exact I
      | |- every_call _ (Raise _) => exact I
      | |- every_call _ (match ?x with _ => _ end) => destruct x
      | |- every_call _ ((fun _ => _) _) => cbn beta
      end ].

Section CallsOfPrograms.
Context {F : Type} {PF : PyFloat F} {CO : Coords F} {K : swe.constants}.

Lemma rise_trans_calls (P : swe.call F -> Prop) self when
  (location : GeoLocation F) rsmi :
  (forall y m d hr, P (swe.julday y m d hr)) ->
  (forall jd, P (swe.revjul jd)) ->
  (forall t b r g p q f, P (swe.rise_trans t b r g p q f)) ->
  every_call P (Celestial__rise_trans self when location rsmi).
Proof.
  intros Hjd Hrev Hrt.
  unfold Celestial__rise_trans, day_check; calls_of; auto.
Qed.

Lemma swe_ecl_coord_calls (P : swe.call F -> Prop) self jd :
  (forall j b f, P (swe.calc_ut j b f)) ->
  (forall j b m f, P (swe.nod_aps_ut j b m f)) ->
  (forall b j f, P (swe.fixstar_ut b j f)) ->
  every_call P (swe_ecl_coord self jd).
Proof.
  intros Hc Hn Hx.
  unfold swe_ecl_coord, Planet_swe_ecl_coord, BlackSun_swe_ecl_coord,
    FixedCelestial_swe_ecl_coord; calls_of; auto.
Qed.

Lemma swe_equator_coord_calls (P : swe.call F -> Prop) self jd :
  (forall j b f, P (swe.calc_ut j b f)) ->
  (forall j b m f, P (swe.nod_aps_ut j b m f)) ->
  (forall b j f, P (swe.fixstar_ut b j f)) ->
  every_call P (swe_equator_coord self jd).
Proof.
  intros Hc Hn Hx.
  unfold swe_equator_coord, Planet_swe_equator_coord,
    BlackSun_swe_equator_coord, FixedCelestial_swe_equator_coord;
    calls_of; auto.
Qed.

Lemma rise_trans_keeps_frame self when (location : GeoLocation F) rsmi :
  never_calls swe.is_set_topo (Celestial__rise_trans self when location rsmi).
Proof. apply rise_trans_calls; reflexivity. Qed.
End CallsOfPrograms.

(** ** The mapping of all four transits *)

Section Transits.
Context {F : Type} {PF : PyFloat F} {K : swe.constants}.
Context {S : Type} (h : swe.engine F S).

(** The run of [transits] is the run of the four queries one after the other,
    each from the state the one before left; the first exception ends it. *)
Lemma exec_transits self time (location : GeoLocation F) (s : S) :
  exec h (transits self time location) s
  = match exec h (rises self time location) s with
    | (inl e, s1, t1) => (inl e, s1, t1)
    | (inr r, s1, t1) =>
      match exec h (sets self time location) s1 with
      | (inl e, s2, t2) => (inl e, s2, t1 ++ t2)
      | (inr st, s2, t2) =>
        match exec h (mc_trans self time location) s2 with
        | (inl e, s3, t3) => (inl e, s3, t1 ++ t2 ++ t3)
        | (inr m, s3, t3) =>
          match exec h (ic_trans self time location) s3 with
          | (inl e, s4, t4) => (inl e, s4, t1 ++ t2 ++ t3 ++ t4)
          | (inr i, s4, t4) =>
              (inr (transit_dict r st m i), s4, t1 ++ t2 ++ t3 ++ t4)
          end
        end
      end
    end.
Proof.
  unfold transits; rewrite exec_bind.
  destruct (exec h (rises self time location) s) as [[[e | r] s1] t1];
    [reflexivity |].
  rewrite exec_bind.
  destruct (exec h (sets self time location) s1) as [[[e | st] s2] t2];
    [reflexivity |].
  rewrite exec_bind.
  destruct (exec h (mc_trans self time location) s2) as [[[e | m] s3] t3];
    [reflexivity |].
  rewrite exec_bind.
  destruct (exec h (ic_trans self time location) s3) as [[[e | i] s4] t4];
    cbn [exec]; rewrite ?app_nil_r; reflexivity.
Qed.

Lemma query_keeps_state (e : event) self time (location : GeoLocation F) (s : S) :
  frame_only h -> final_state h (query e self time location) s = s.
Proof.
  intros Hfo; rewrite query_rise_trans.
  apply frame_only_state; [exact Hfo | apply rise_trans_keeps_frame].
Qed.

Lemma transit_dict_lookup (r st m i : option timedelta) (e : event) :
  transit_dict r st m i !! key_of e
  = Some match e with rise => r | set => st | mc => m | ic => i end.
Proof. destruct e; reflexivity. Qed.

Lemma transit_dict_dom (r st m i : option timedelta) :
  dom (transit_dict r st m i) = ({["rise"; "set"; "mc"; "ic"]} : gset string).
Proof.
  unfold transit_dict; rewrite !dom_insert_L, dom_empty_L; set_solver.
Qed.

(** C8.  On an engine whose only mutable state is the observer frame, the
    mapping of [transits] is made of the results of the four individual
    queries for the same instant and observer, each as it comes out when run
    on its own from the same engine state: when all four return, the mapping
    is returned, its keys are exactly "rise", "set", "mc" and "ic", and each
    key holds the result of its query ([rises], [sets], [mc_trans],
    [ic_trans]); when one raises, the first exception, in that order, is the
    outcome. *)
Theorem transits_are_the_four_queries (self : pyobj) (time : datetime)
  (location : GeoLocation F) (s : S) :
  frame_only h ->
  outcome h (transits self time location) s
  = (let? r := outcome h (rises self time location) s in
     let? st := outcome h (sets self time location) s in
     let? m := outcome h (mc_trans self time location) s in
     let? i := outcome h (ic_trans self time location) s in
     inr (transit_dict r st m i))
  /\ (forall d, outcome h (transits self time location) s = inr d ->
        dom d = ({["rise"; "set"; "mc"; "ic"]} : gset string)
        /\ forall e : event,
             inr (d !! key_of e)
             = (let? v := outcome h (query e self time location) s in
                inr (Some v))).
Proof.
  intros Hfo.
  pose proof (query_keeps_state rise self time location s Hfo) as H1.
  pose proof (query_keeps_state set self time location s Hfo) as H2.
  pose proof (query_keeps_state mc self time location s Hfo) as H3.
  pose proof (query_keeps_state ic self time location s Hfo) as H4.
  assert (Hrun :
    outcome h (transits self time location) s
    = (let? r := outcome h (rises self time location) s in
       let? st := outcome h (sets self time location) s in
       let? m := outcome h (mc_trans self time location) s in
       let? i := outcome h (ic_trans self time location) s in
       inr (transit_dict r st m i))).
  { unfold outcome, final_state in *; cbn [query] in *.
    rewrite exec_transits.
    destruct (exec h (rises self time location) s) as [[[e | r] s1] t1];
      cbn [fst snd] in *; [reflexivity | subst s1].
    destruct (exec h (sets self time location) s) as [[[e | st] s2] t2];
      cbn [fst snd ebind] in *; [reflexivity | subst s2].
    destruct (exec h (mc_trans self time location) s) as [[[e | m] s3] t3];
      cbn [fst snd ebind] in *; [reflexivity | subst s3].
    destruct (exec h (ic_trans self time location) s) as [[[e | i] s4] t4];
      reflexivity. }
  split; [exact Hrun |].
  intros d Hd; rewrite Hrun in Hd; clear Hrun.
  change (rises self time location) with (query rise self time location) in Hd.
  change (sets self time location) with (query set self time location) in Hd.
  change (mc_trans self time location) with (query mc self time location) in Hd.
  change (ic_trans self time location) with (query ic self time location) in Hd.
  destruct (outcome h (query rise self time location) s) as [? | r] eqn:Er;
    [discriminate |].
  destruct (outcome h (query set self time location) s) as [? | st] eqn:Es;
    [discriminate |].
  destruct (outcome h (query mc self time location) s) as [? | m] eqn:Em;
    [discriminate |].
  destruct (outcome h (query ic self time location) s) as [? | i] eqn:Ei;
    [discriminate |].
  cbn [ebind] in Hd; injection Hd as <-.
  split; [apply transit_dict_dom |].
  intros e; rewrite transit_dict_lookup.
  destruct e; rewrite ?Er, ?Es, ?Em, ?Ei; reflexivity.
Qed.
End Transits.

(** ** Coordinate queries *)

Section CoordinateQueries.
Context {F : Type} {PF : PyFloat F} {CO : Coords F} {K : swe.constants}.

(** The three coordinate queries, for statements about all of them. *)
Lemma coord_same_minute self (t1 t2 : datetime) (location : GeoLocation F) :
  year t1 = year t2 -> month t1 = month t2 -> day t1 = day t2 ->
  hour t1 = hour t2 -> minute t1 = minute t2 ->
  ecl_coord self t1 location = ecl_coord self t2 location
  /\ equator_coord self t1 location = equator_coord self t2 location
  /\ hor_coord self t1 location = hor_coord self t2 location.
Proof.
  intros Hy Hm Hd Hh Hmi.
  unfold ecl_coord, equator_coord, hor_coord, hour_of.
  rewrite Hy, Hm, Hd, Hh, Hmi; repeat split.
Qed.

Lemma coord_calls (P : swe.call F -> Prop) self time (location : GeoLocation F) :
  P (swe.set_topo (longitude_degrees location) (latitude_degrees location)) ->
  P (swe.julday (year time) (month time) (day time) (hour_of time)) ->
  (forall j b f, P (swe.calc_ut j b f)) ->
  (forall j b m f, P (swe.nod_aps_ut j b m f)) ->
  (forall b j f, P (swe.fixstar_ut b j f)) ->
  (forall jd xin,
      P (swe.azalt jd swe.EQU2HOR
           (longitude_degrees location, latitude_degrees location, of_int 0)
           0 0 xin)) ->
  every_call P (ecl_coord self time location)
  /\ every_call P (equator_coord self time location)
  /\ every_call P (hor_coord self time location).
Proof.
  intros Hst Hjd Hc Hn Hx Ha.
  unfold ecl_coord, equator_coord, hor_coord; split; [| split]; calls_of;
    auto using swe_ecl_coord_calls, swe_equator_coord_calls.
Qed.

Section OnAnEngine.
Context {S : Type} (h : swe.engine F S).

(** A program that sets the frame and then only queries runs the same way
    again from the state it left, also after any program that leaves the
    frame alone. *)
Lemma set_topo_then_query {A B} (lon lat : F) (p : Prog F A) (mid : Prog F B)
  (s : S) :
  frame_only h -> set_topo_settles h ->
  never_calls swe.is_set_topo p -> never_calls swe.is_set_topo mid ->
  let q := Call (swe.set_topo lon lat) (fun _ => p) in
  exec h q (final_state h mid (final_state h q s)) = exec h q s.
Proof.
  intros Hfo Hst Hp Hmid q.
  rewrite (frame_only_state h mid _ Hfo Hmid).
  unfold final_state, q; cbn [exec].
  pose proof (Hst lon lat s) as Hagain.
  destruct (h (swe.set_topo lon lat) s) as [[msg | r] s1] eqn:E1; cbn [snd] in Hagain.
  - cbn [fst snd]; rewrite Hagain; reflexivity.
  - pose proof (frame_only_state h p s1 Hfo Hp) as Hs1; unfold final_state in Hs1.
    destruct (exec h p s1) as [[o s2] tr] eqn:E2; cbn [fst snd] in *; subst s2.
    rewrite Hagain, E2; reflexivity.
Qed.
End OnAnEngine.
End CoordinateQueries.

Section CoordinateClaims.
Context {F : Type} {PF : PyFloat F} {CO : Coords F} {K : swe.constants}.

(** C9.  On an engine whose only mutable state is the observer frame (and
    which is left unchanged by setting the frame it has), a coordinate query
    repeated with the same instant and observer, with nothing in between that
    sets the frame, runs exactly as the first time: same outcome (the same
    coordinates, or the same exception), same calls, same engine state; and
    this from any engine state the first call started in.  In [hor_coord],
    the conversion to the horizon is asked with the observer's longitude and
    latitude at altitude 0 and with pressure 0 and temperature 0, so azimuth
    and altitude come from the equatorial coordinate and the observer alone. *)
Theorem coordinate_queries_repeat (self : pyobj) (time : datetime)
  (location : GeoLocation F) (S : Type) (h : swe.engine F S) (s : S)
  (B : Type) (between : Prog F B) :
  frame_only h ->
  set_topo_settles h ->
  never_calls swe.is_set_topo between ->
  exec h (ecl_coord self time location)
    (final_state h between (final_state h (ecl_coord self time location) s))
  = exec h (ecl_coord self time location) s
  /\ exec h (equator_coord self time location)
       (final_state h between
          (final_state h (equator_coord self time location) s))
     = exec h (equator_coord self time location) s
  /\ exec h (hor_coord self time location)
       (final_state h between (final_state h (hor_coord self time location) s))
     = exec h (hor_coord self time location) s
  /\ Forall (converts_for location) (calls h (hor_coord self time location) s).
Proof.
  intros Hfo Hst Hbetween.
  split; [| split; [| split]].
  - apply (set_topo_then_query h _ _
             (let* jd := perform (swe.julday (year time) (month time)
                                    (day time) (hour_of time)) in
              swe_ecl_coord self jd)
             between s Hfo Hst); [| exact Hbetween].
    unfold never_calls; calls_of; try reflexivity.
    apply swe_ecl_coord_calls; reflexivity.
  - apply (set_topo_then_query h _ _
             (let* jd := perform (swe.julday (year time) (month time)
                                    (day time) (hour_of time)) in
              swe_equator_coord self jd)
             between s Hfo Hst); [| exact Hbetween].
    unfold never_calls; calls_of; try reflexivity.
    apply swe_equator_coord_calls; reflexivity.
  - apply (set_topo_then_query h _ _
             (let* jd := perform (swe.julday (year time) (month time)
                                    (day time) (hour_of time)) in
              let* coord := swe_equator_coord self jd in
              let* (azimuth, true_alt, app_alt) :=
                perform (swe.azalt jd swe.EQU2HOR
                           (longitude_degrees location,
                            latitude_degrees location, of_int 0)
                           0 0
                           (ra_degrees coord, decl_degrees coord, of_int 0)) in
              Ret (HorCoord azimuth true_alt))
             between s Hfo Hst); [| exact Hbetween].
    unfold never_calls; calls_of; try reflexivity.
    apply swe_equator_coord_calls; reflexivity.
  - apply every_call_run.
    apply (coord_calls (converts_for location) self time location);
      cbn [converts_for]; auto.
Qed.

(** C10.  The time reference of a coordinate query is asked of the engine for
    the year, month and day of the instant and the hour [hour + minute / 60.]:
    every [julday] call of the three queries has these arguments.  So two
    instants that agree on year, month, day, hour and minute, whatever their
    seconds and microseconds, run the same way on any engine from any state:
    same ecliptic, equatorial and horizontal outcome, same calls. *)
Theorem coordinates_ignore_seconds (self : pyobj) (t1 t2 : datetime)
  (location : GeoLocation F) (S : Type) (h : swe.engine F S) (s : S) :
  year t1 = year t2 -> month t1 = month t2 -> day t1 = day t2 ->
  hour t1 = hour t2 -> minute t1 = minute t2 ->
  exec h (ecl_coord self t1 location) s = exec h (ecl_coord self t2 location) s
  /\ exec h (equator_coord self t1 location) s
     = exec h (equator_coord self t2 location) s
  /\ exec h (hor_coord self t1 location) s
     = exec h (hor_coord self t2 location) s
  /\ Forall (built_from_minutes t1)
       (calls h (ecl_coord self t1 location) s
        ++ calls h (equator_coord self t1 location) s
        ++ calls h (hor_coord self t1 location) s).
Proof.
  intros Hy Hm Hd Hh Hmi.
  destruct (coord_same_minute self t1 t2 location Hy Hm Hd Hh Hmi)
    as (He & Hq & Hho).
  rewrite He, Hq, Hho.
  split; [reflexivity | split; [reflexivity | split; [reflexivity |]]].
  rewrite <- He, <- Hq, <- Hho.
  destruct (coord_calls (built_from_minutes t1) self t1 location)
    as (Ce & Cq & Ch); cbn [built_from_minutes]; auto.
  rewrite !Forall_app; repeat split; apply every_call_run; assumption.
Qed.
End CoordinateClaims.

(** ** The decomposition into hours, minutes and seconds *)

(** *** The duration built *)

(** Within the range of [timedelta], which holds every time of day, the
    duration is returned and it is these hours, minutes and seconds. *)
Lemma timedelta_in_range (hh mm ss : Z) :
  0 <= hh < 24000000000 -> 0 <= mm < 60 -> 0 <= ss < 60 ->
  exists td, timedelta_new hh mm ss = inr td
             /\ total_seconds td = hh * 3600 + mm * 60 + ss.
Proof.
  intros Hh Hm Hs; unfold timedelta_new.
  set (total := hh * 3600 + mm * 60 + ss).
  assert (Hd : 0 <= total / 86400 <= 999999999).
  { split; [apply Z.div_pos; lia |].
    assert (total / 86400 < 1000000000); [| lia].
    apply Z.div_lt_upper_bound; lia. }
  replace (Z.abs (total / 86400) >? 999999999) with false
    by (symmetry; rewrite Z.gtb_ltb; apply Z.ltb_ge; lia).
  eexists; split; [reflexivity |].
  unfold total_seconds; cbn [td_days td_seconds].
  pose proof (Z.div_mod total 86400); lia.
Qed.

Lemma hours_of_fields (td : timedelta) (hh mm ss : Z) :
  total_seconds td = hh * 3600 + mm * 60 + ss ->
  (hours_of td == inject_Z hh + inject_Z mm / 60 + inject_Z ss / 3600)%Q.
Proof.
  intros Ht; unfold hours_of; rewrite Ht.
  rewrite Qmake_Qdiv, !inject_Z_plus, !inject_Z_mult.
  change (inject_Z (Z.pos 3600)) with 3600%Q.
  change (inject_Z 3600) with 3600%Q; change (inject_Z 60) with 60%Q.
  field.
Qed.

(** *** In binary64 *)

Lemma holds_from_spec (f : Z -> bool) (n : nat) (k j : Z) :
  holds_from f n k = true -> k <= j < k + Z.of_nat n -> f j = true.
Proof.
  revert k; induction n as [| n IH]; intros k Hall Hj; [lia |].
  cbn [holds_from] in Hall; apply andb_true_iff in Hall as [Hk Hrest].
  destruct (Z.eq_dec j k) as [-> | Hne]; [exact Hk |].
  apply (IH (k + 1)); [exact Hrest | lia].
Qed.

(** On doubles the decomposition stays within a second of the time it is
    given, at every whole second of the day: the double nearest to [k / 3600]
    comes back as [k] seconds or as [k - 1]. *)
Lemma binary64_whole_seconds (k : Z) :
  0 <= k < 86400 ->
  exists td : timedelta,
    @hms float binary64 (int_div k 3600) = inr td
    /\ k - 1 <= total_seconds td <= k.
Proof.
  intros Hk.
  assert (Hall : holds_from whole_second_ok (Z.to_nat 86400) 0 = true)
    by (vm_compute; reflexivity).
  pose proof (holds_from_spec _ _ 0 k Hall) as Hok.
  rewrite Z2Nat.id in Hok by lia.
  specialize (Hok ltac:(lia)); unfold whole_second_ok in Hok.
  destruct (@hms float binary64 (int_div k 3600)) as [err | td];
    [discriminate |].
  exists td; split; [reflexivity | lia].
Qed.

(** The two branches of [float_of_int] agree where both apply. *)
Lemma float_of_int_agrees :
  Forall (fun i => float_of_int i
                   = SF2Prim (binary_normalize prec emax i 0 false))
    [0; 1; -1; 23; 59; 60; 3600; 86399; -86400; 2 ^ 53 - 1].
Proof. repeat constructor. Qed.

(** ** The arithmetic of doubles *)

(** The arithmetic of the module is that of doubles.  What follows derives,
    from the definition of the operations in [SpecFloat], as much of their
    behaviour as the decomposition needs: a product or a difference is the
    exact one rounded to the nearest double, and is exact when the exact
    result is a double. *)

(** *** Rounding to nearest, from its definition *)

Lemma digits2_size (p : positive) : digits2_pos p = Pos.size p.
Proof. induction p as [p IH | p IH |]; cbn; rewrite ?IH; reflexivity. Qed.

Lemma digits_bounds (p : positive) :
  2 ^ (Z.pos (digits2_pos p) - 1) <= Z.pos p < 2 ^ Z.pos (digits2_pos p).
Proof.
  rewrite digits2_size; split.
  - pose proof (Pos.size_le p) as H.
    assert (H' : Z.pos (2 ^ Pos.size p) <= Z.pos p~0) by exact H.
    rewrite Pos2Z.inj_pow in H'.
    replace (Z.pos (Pos.size p)) with (Z.pos (Pos.size p) - 1 + 1) in H' by lia.
    rewrite Z.pow_add_r in H' by lia.
    change (Z.pos p~0) with (2 * Z.pos p) in H'; lia.
  - pose proof (Pos.size_gt p) as H.
    assert (H' : Z.pos p < Z.pos (2 ^ Pos.size p)) by exact H.
    rewrite Pos2Z.inj_pow in H'; exact H'.
Qed.

Lemma digits_le (p : positive) (k : Z) :
  Z.pos p < 2 ^ k -> Z.pos (digits2_pos p) <= k.
Proof.
  intros H; destruct (digits_bounds p) as [Hl _].
  destruct (Z_le_gt_dec (Z.pos (digits2_pos p)) k) as [|Hgt]; [assumption |].
  assert (0 <= k).
  { destruct (Z_le_gt_dec 0 k); [assumption |].
    rewrite Z.pow_neg_r in H by lia; lia. }
  assert (2 ^ k <= 2 ^ (Z.pos (digits2_pos p) - 1))
    by (apply Z.pow_le_mono_r; lia).
  lia.
Qed.

(** The state of the shifter after [k] steps on [M]. *)
Definition shr_inv (M k : Z) (mrs : shr_record) : Prop :=
  shr_m mrs = M / 2 ^ k
  /\ shr_r mrs = (if k =? 0 then false else Z.odd (M / 2 ^ (k - 1)))
  /\ shr_s mrs = (if k =? 0 then false else negb (M mod 2 ^ (k - 1) =? 0)).

Lemma shr_1_nonneg (m : Z) (r s : bool) :
  0 <= m ->
  shr_1 {| shr_m := m; shr_r := r; shr_s := s |}
  = {| shr_m := m / 2; shr_r := Z.odd m; shr_s := r || s |}.
Proof.
  intros Hm; destruct m as [| p | p]; [reflexivity | | lia].
  destruct p as [p | p |]; cbn [shr_1 Z.odd].
  - f_equal; apply (Z.div_unique _ _ _ 1); lia.
  - f_equal; apply (Z.div_unique _ _ _ 0); lia.
  - reflexivity.
Qed.

Lemma mod_pow2_succ (M k : Z) :
  0 <= k ->
  M mod 2 ^ (k + 1) = M mod 2 ^ k + 2 ^ k * ((M / 2 ^ k) mod 2).
Proof.
  intros Hk; rewrite Z.pow_add_r by lia; change (2 ^ 1) with 2.
  apply Z.rem_mul_r; [| lia].
  pose proof (Z.pow_pos_nonneg 2 k); lia.
Qed.

Lemma odd_mod2 (a : Z) : Z.odd a = negb (a mod 2 =? 0).
Proof.
  rewrite Zmod_odd; destruct (Z.odd a); reflexivity.
Qed.

Lemma shr_1_inv (M k : Z) (mrs : shr_record) :
  0 <= M -> 0 <= k -> shr_inv M k mrs -> shr_inv M (k + 1) (shr_1 mrs).
Proof.
  intros HM Hk (Hm & Hr & Hs); destruct mrs as [m r s]; cbn in Hm, Hr, Hs.
  assert (Hp : 0 < 2 ^ k) by (apply Z.pow_pos_nonneg; lia).
  rewrite shr_1_nonneg by (subst m; apply Z.div_pos; lia).
  unfold shr_inv; cbn [shr_m shr_r shr_s].
  replace (k + 1 =? 0) with false by (symmetry; apply Z.eqb_neq; lia).
  replace (k + 1 - 1) with k by lia.
  split; [| split].
  - subst m; rewrite Z.pow_add_r, Z.div_div by lia; reflexivity.
  - subst m; reflexivity.
  - destruct (Z.eqb_spec k 0) as [-> | Hk0].
    + subst r s; cbn; rewrite Z.mod_1_r; reflexivity.
    + subst r s.
      replace k with (k - 1 + 1) at 3 by lia.
      rewrite mod_pow2_succ by lia.
      rewrite odd_mod2.
      pose proof (Z.mod_pos_bound M (2 ^ (k - 1))
                    ltac:(apply Z.pow_pos_nonneg; lia)) as B1.
      pose proof (Z.mod_pos_bound (M / 2 ^ (k - 1)) 2 ltac:(lia)) as B2.
      assert (Hq : 0 < 2 ^ (k - 1)) by (apply Z.pow_pos_nonneg; lia).
      destruct (Z.eqb_spec ((M / 2 ^ (k - 1)) mod 2) 0) as [E0 | E0];
        destruct (Z.eqb_spec (M mod 2 ^ (k - 1)) 0) as [E1 | E1];
        destruct (Z.eqb_spec (M mod 2 ^ (k - 1)
                              + 2 ^ (k - 1) * ((M / 2 ^ (k - 1)) mod 2)) 0)
          as [E2 | E2]; cbn; try reflexivity; exfalso; nia.
Qed.

Lemma iter_shr_inv (p : positive) :
  forall (M k : Z) (mrs : shr_record),
    0 <= M -> 0 <= k -> shr_inv M k mrs ->
    shr_inv M (k + Z.pos p) (SpecFloat.iter_pos shr_1 p mrs).
Proof.
  induction p as [p IH | p IH |]; intros M k mrs HM Hk Hinv; cbn [SpecFloat.iter_pos].
  - replace (k + Z.pos p~1) with (k + 1 + Z.pos p + Z.pos p) by lia.
    apply IH; [lia | lia |].
    apply IH; [lia | lia |].
    apply shr_1_inv; assumption.
  - replace (k + Z.pos p~0) with (k + Z.pos p + Z.pos p) by lia.
    apply IH; [lia | lia |].
    apply IH; assumption.
  - apply shr_1_inv; assumption.
Qed.

(** Rounding after a shift by [n] bits: the result is the quotient or the next
    integer, at most half a unit away. *)
Lemma round_shr (M n : Z) (mrs : shr_record) :
  0 <= M -> 0 < n -> shr_inv M n mrs ->
  let m1 := round_nearest_even (shr_m mrs) (loc_of_shr_record mrs) in
  M / 2 ^ n <= m1 <= M / 2 ^ n + 1
  /\ 2 * (m1 * 2 ^ n - M) <= 2 ^ n
  /\ 2 * (M - m1 * 2 ^ n) <= 2 ^ n.
Proof.
  intros HM Hn (Hm & Hr & Hs); destruct mrs as [m r s]; cbn in Hm, Hr, Hs.
  replace (n =? 0) with false in Hr, Hs by (symmetry; apply Z.eqb_neq; lia).
  assert (Hh : 0 < 2 ^ (n - 1)) by (apply Z.pow_pos_nonneg; lia).
  assert (H2 : 2 ^ n = 2 * 2 ^ (n - 1)).
  { replace n with (n - 1 + 1) at 1 by lia.
    rewrite Z.pow_add_r by lia; change (2 ^ 1) with 2; lia. }
  pose proof (Z.div_mod M (2 ^ n) ltac:(lia)) as Hdm.
  pose proof (mod_pow2_succ M (n - 1) ltac:(lia)) as Hrec.
  replace (n - 1 + 1) with n in Hrec by lia.
  pose proof (Z.mod_pos_bound M (2 ^ (n - 1)) Hh) as B1.
  pose proof (Z.mod_pos_bound (M / 2 ^ (n - 1)) 2 ltac:(lia)) as B2.
  rewrite odd_mod2 in Hr.
  cbn [shr_m loc_of_shr_record round_nearest_even].
  set (q := M / 2 ^ n) in *; set (R0 := M mod 2 ^ (n - 1)) in *.
  set (b := (M / 2 ^ (n - 1)) mod 2) in *.
  subst m.
  destruct (Z.eqb_spec b 0) as [Eb | Eb];
    destruct (Z.eqb_spec R0 0) as [E0 | E0]; cbn in Hr, Hs; subst r s;
    cbn [loc_of_shr_record round_nearest_even].
  - nia.
  - nia.
  - destruct (Z.even q); nia.
  - nia.
Qed.

Lemma fexp_eq (k : Z) : fexp prec emax k = Z.max (k - 53) (-1074).
Proof. reflexivity. Qed.

(** The second normalisation of [binary_round_aux]: a mantissa of at most
    53 bits is kept, 2^53 is halved. *)
Lemma renormalise (m1 e' : Z) :
  0 <= m1 <= 2 ^ 53 -> -1074 <= e' <= 970 ->
  let z :=
    let '(mrs, e2) := shr_fexp prec emax m1 e' loc_Exact in
    match shr_m mrs with
    | Z0 => S754_zero false
    | Z.pos m => if e2 <=? emax - prec then S754_finite false m e2
                 else S754_infinity false
    | Z.neg _ => S754_nan
    end in
  (m1 = 0 /\ z = S754_zero false)
  \/ (exists m2, m1 = Z.pos m2 /\ z = S754_finite false m2 e')
  \/ (exists m2, m1 = 2 * Z.pos m2 /\ z = S754_finite false m2 (e' + 1)).
Proof.
  intros Hm He; unfold shr_fexp, shr; rewrite fexp_eq.
  destruct m1 as [| p | p]; [| | lia].
  - left; split; [reflexivity |]; cbn [Zdigits2 shr_record_of_loc].
    destruct (Z.max (0 + e' - 53) (-1074) - e') eqn:E; try lia; reflexivity.
  - cbn [Zdigits2 shr_record_of_loc].
    destruct (Z.eq_dec (Z.pos p) (2 ^ 53)) as [Heq | Hne].
    + right; right.
      assert (Hp : p = (2 ^ 53)%positive) by (apply Pos2Z.inj; exact Heq).
      subst p; cbn [digits2_pos Pos.succ Pos.pow Pos.iter Pos.mul].
      change (Z.pos (digits2_pos (2 ^ 53))) with 54.
      replace (Z.max (54 + e' - 53) (-1074) - e') with 1 by lia.
      cbn [SpecFloat.iter_pos shr_1 shr_m]; exists (2 ^ 52)%positive.
      split; [reflexivity |].
      replace (e' + 1 <=? emax - prec) with true; [reflexivity |].
      symmetry; apply Z.leb_le; change (emax - prec) with 971; lia.
    + right; left; exists p; split; [reflexivity |].
      assert (Hd : Z.pos (digits2_pos p) <= 53) by (apply digits_le; lia).
      destruct (Z.max (Z.pos (digits2_pos p) + e' - 53) (-1074) - e') eqn:E;
        try lia; cbn [shr_m].
      * replace (e' <=? emax - prec) with true; [reflexivity |].
        symmetry; apply Z.leb_le; change (emax - prec) with 971; lia.
      * replace (e' <=? emax - prec) with true; [reflexivity |].
        symmetry; apply Z.leb_le; change (emax - prec) with 971; lia.
Qed.

(** [binary_round_aux] on an exact positive mantissa: either the mantissa
    fits and is kept, or it is shifted and rounded to the nearest integer. *)
Lemma round_aux_Z (M : positive) (E : Z) :
  let L := Z.pos (digits2_pos M) + E in
  let e' := Z.max (L - 53) (-1074) in
  L <= 1023 -> E <= 971 ->
  let z := binary_round_aux prec emax false (Z.pos M) E loc_Exact in
  (e' <= E /\ z = S754_finite false M E)
  \/ (E < e'
      /\ exists m1 : Z,
           Z.pos M / 2 ^ (e' - E) <= m1 <= Z.pos M / 2 ^ (e' - E) + 1
           /\ 2 * (m1 * 2 ^ (e' - E) - Z.pos M) <= 2 ^ (e' - E)
           /\ 2 * (Z.pos M - m1 * 2 ^ (e' - E)) <= 2 ^ (e' - E)
           /\ ((m1 = 0 /\ z = S754_zero false)
               \/ (exists m2, m1 = Z.pos m2 /\ z = S754_finite false m2 e')
               \/ (exists m2, m1 = 2 * Z.pos m2
                              /\ z = S754_finite false m2 (e' + 1)))).
Proof.
  intros L e' HL HE z.
  destruct (Z_le_gt_dec e' E) as [Hle | Hgt].
  - left; split; [exact Hle |].
    unfold z, binary_round_aux, shr_fexp, shr; rewrite fexp_eq.
    cbn [Zdigits2 shr_record_of_loc]; fold L; fold e'.
    destruct (e' - E) eqn:En; try lia;
      cbn [shr_m loc_of_shr_record round_nearest_even Zdigits2
           shr_record_of_loc];
      rewrite fexp_eq; fold L; fold e'; rewrite En; cbn [shr_m];
      (replace (E <=? emax - prec) with true; [reflexivity |]);
      symmetry; apply Z.leb_le; change (emax - prec) with 971; lia.
  - right; split; [lia |].
    set (n := e' - E) in *.
    assert (Hn : 0 < n) by (unfold n; lia).
    destruct n as [| pn | pn] eqn:En; try lia.
    assert (Hinv0 : shr_inv (Z.pos M) 0
                      {| shr_m := Z.pos M; shr_r := false; shr_s := false |}).
    { unfold shr_inv; cbn; rewrite Z.div_1_r; repeat split. }
    pose proof (iter_shr_inv pn (Z.pos M) 0 _ ltac:(lia) ltac:(lia) Hinv0)
      as Hinv.
    replace (0 + Z.pos pn) with (Z.pos pn) in Hinv by lia.
    pose proof (round_shr (Z.pos M) (Z.pos pn) _ ltac:(lia) ltac:(lia) Hinv)
      as Hround; cbv zeta in Hround.
    set (mrs := SpecFloat.iter_pos shr_1 pn _) in *.
    set (m1 := round_nearest_even (shr_m mrs) (loc_of_shr_record mrs)) in *.
    destruct Hround as ((Hlo & Hhi) & Hup & Hdn).
    exists m1; split; [split; assumption | split; [exact Hup |]].
    split; [exact Hdn |].
    assert (Hpow : 0 < 2 ^ Z.pos pn) by (apply Z.pow_pos_nonneg; lia).
    assert (Hq0 : 0 <= Z.pos M / 2 ^ Z.pos pn) by (apply Z.div_pos; lia).
    assert (Hq : Z.pos M / 2 ^ Z.pos pn < 2 ^ 53).
    { apply Z.div_lt_upper_bound; [lia |].
      destruct (digits_bounds M) as [_ Hu].
      rewrite <- Z.pow_add_r by lia.
      eapply Z.lt_le_trans; [exact Hu |].
      apply Z.pow_le_mono_r; [lia |].
      unfold e', L in En; lia. }
    assert (He' : -1074 <= e' <= 970) by (unfold e'; lia).
    pose proof (renormalise m1 e' ltac:(lia) He') as Hren; cbv zeta in Hren.
    assert (Hz : binary_round_aux prec emax false (Z.pos M) E loc_Exact
                 = let '(mrs, e2) := shr_fexp prec emax m1 e' loc_Exact in
                   match shr_m mrs with
                   | Z0 => S754_zero false
                   | Z.pos m => if e2 <=? emax - prec
                                then S754_finite false m e2
                                else S754_infinity false
                   | Z.neg _ => S754_nan
                   end).
    { unfold binary_round_aux.
      unfold shr_fexp at 1; unfold shr at 1; rewrite fexp_eq.
      cbn [Zdigits2 shr_record_of_loc]; fold L; fold e'.
      replace (e' - E) with (Z.pos pn) by (symmetry; exact En).
      fold mrs; fold m1.
      replace (E + Z.pos pn) with e' by lia.
      reflexivity. }
    unfold z; rewrite Hz; exact Hren.
Qed.

(** *** Values *)

Definition p2 (e : Z) : Q := Qpower 2 e.

Lemma p2_pos (e : Z) : (0 < p2 e)%Q.
Proof. apply Qpower_0_lt; reflexivity. Qed.

Lemma p2_add (a b : Z) : (p2 (a + b) == p2 a * p2 b)%Q.
Proof. apply Qpower_plus; discriminate. Qed.

Lemma p2_int (e : Z) : 0 <= e -> (p2 e == inject_Z (2 ^ e))%Q.
Proof. intros He; unfold p2; rewrite Zpower_Qpower by exact He; reflexivity. Qed.

Lemma p2_le (a b : Z) : a <= b -> (p2 a <= p2 b)%Q.
Proof. intros H; apply Qpower_le_compat_l; [exact H | discriminate]. Qed.

Lemma p2_lt (a b : Z) : a < b -> (p2 a < p2 b)%Q.
Proof. intros H; apply Qpower_lt_compat_l; [exact H | reflexivity]. Qed.

Lemma p2_lt_inv (a b : Z) : (p2 a < p2 b)%Q -> a < b.
Proof.
  intros H; destruct (Z_lt_ge_dec a b) as [|Hge]; [assumption |].
  pose proof (p2_le b a ltac:(lia)); lra.
Qed.

(** The value of a float that is not negative. *)
Definition SFv (x : spec_float) : Q :=
  match x with
  | S754_finite false m e => inject_Z (Z.pos m) * p2 e
  | _ => 0
  end.

Definition nonneg (x : spec_float) : Prop :=
  match x with
  | S754_zero _ => True
  | S754_finite false _ _ => True
  | _ => False
  end.

Lemma SFv_nonneg (x : spec_float) : (0 <= SFv x)%Q.
Proof.
  destruct x as [s | s | | [|] m e]; cbn; try lra.
  pose proof (p2_pos e).
  assert (0 < inject_Z (Z.pos m))%Q
    by (change 0%Q with (inject_Z 0); rewrite <- Zlt_Qlt; lia).
  nra.
Qed.

(** A mantissa times a power of two below [2^k] has at most [k - E] bits. *)
Lemma digits_of_bound (M : positive) (E k : Z) :
  (inject_Z (Z.pos M) * p2 E < p2 k)%Q -> Z.pos (digits2_pos M) + E <= k.
Proof.
  intros H.
  assert (HM : (inject_Z (Z.pos M) < p2 (k - E))%Q).
  { replace k with (k - E + E) in H by lia; rewrite p2_add in H.
    pose proof (p2_pos E); nra. }
  destruct (Z_lt_ge_dec (k - E) 0) as [Hneg | Hpos].
  - pose proof (p2_lt (k - E) 0 Hneg) as H1; change (p2 0) with 1%Q in H1.
    assert (1 <= inject_Z (Z.pos M))%Q
      by (change 1%Q with (inject_Z 1); rewrite <- Zle_Qle; lia).
    lra.
  - rewrite p2_int in HM by lia; rewrite <- Zlt_Qlt in HM.
    pose proof (digits_le M (k - E) HM); lia.
Qed.

(** [binary_round_aux] in terms of values: the result lies on the grid of
    [2^e'] and within half a step of the exact value. *)
Lemma round_aux_Q (M : positive) (E k : Z) :
  (inject_Z (Z.pos M) * p2 E < p2 k)%Q -> k <= 971 ->
  let z := binary_round_aux prec emax false (Z.pos M) E loc_Exact in
  let P := (inject_Z (Z.pos M) * p2 E)%Q in
  nonneg z
  /\ exists (e' c : Z),
       -1074 <= e' <= Z.max (k - 53) (-1074)
       /\ (SFv z == inject_Z c * p2 e')%Q
       /\ (2 * (SFv z - P) <= p2 e')%Q
       /\ (2 * (P - SFv z) <= p2 e')%Q
       /\ (e' <= E -> (SFv z == P)%Q).
Proof.
  intros HP Hk z P.
  pose proof (digits_of_bound M E k HP) as HL.
  assert (HE : E < k).
  { apply p2_lt_inv.
    assert (1 <= inject_Z (Z.pos M))%Q
      by (change 1%Q with (inject_Z 1); rewrite <- Zle_Qle; lia).
    pose proof (p2_pos E); nra. }
  pose proof (round_aux_Z M E ltac:(lia) ltac:(lia)) as Hz; cbv zeta in Hz.
  fold z in Hz.
  set (e' := Z.max (Z.pos (digits2_pos M) + E - 53) (-1074)) in *.
  destruct Hz as [(Hle & Hz) | (Hlt & m1 & (Hlo & Hhi) & Hup & Hdn & Hz)].
  - rewrite Hz; split; [exact I |].
    exists e', (Z.pos M * 2 ^ (E - e')).
    split; [unfold e'; lia |].
    assert (Hval : (inject_Z (Z.pos M * 2 ^ (E - e')) * p2 e' == P)%Q).
    { rewrite inject_Z_mult, <- p2_int by lia.
      unfold P; replace E with (E - e' + e') at 2 by lia.
      rewrite p2_add; ring. }
    cbn [SFv]; fold P; pose proof (p2_pos e').
    split; [rewrite Hval; reflexivity |].
    split; [lra | split; [lra | reflexivity]].
  - set (n := e' - E) in *.
    assert (Hn : 0 < n) by (unfold n; lia).
    assert (Hpn : (p2 e' == inject_Z (2 ^ n) * p2 E)%Q).
    { rewrite <- p2_int by lia; rewrite <- p2_add.
      replace (n + E) with e' by (unfold n; lia); reflexivity. }
    assert (Hv : (SFv z == inject_Z m1 * p2 e')%Q /\ nonneg z).
    { destruct Hz as [(-> & ->) | [(m2 & -> & ->) | (m2 & -> & ->)]].
      - split; [cbn; ring | exact I].
      - split; [reflexivity | exact I].
      - split; [| exact I]; cbn [SFv].
        rewrite p2_add, inject_Z_mult; change (p2 1) with 2%Q.
        change (inject_Z 2) with 2%Q; ring. }
    destruct Hv as (Hv & Hnn); split; [exact Hnn |].
    exists e', m1; split; [unfold e'; lia |].
    split; [exact Hv |].
    assert (Hup' : (2 * (inject_Z m1 * inject_Z (2 ^ n) - inject_Z (Z.pos M))
                    <= inject_Z (2 ^ n))%Q).
    { rewrite Zle_Qle in Hup; unfold Z.sub in Hup.
      rewrite inject_Z_mult, inject_Z_plus, inject_Z_opp, inject_Z_mult in Hup.
      exact Hup. }
    assert (Hdn' : (2 * (inject_Z (Z.pos M) - inject_Z m1 * inject_Z (2 ^ n))
                    <= inject_Z (2 ^ n))%Q).
    { rewrite Zle_Qle in Hdn; unfold Z.sub in Hdn.
      rewrite inject_Z_mult, inject_Z_plus, inject_Z_opp, inject_Z_mult in Hdn.
      exact Hdn. }
    pose proof (p2_pos E) as HpE.
    rewrite Hv, Hpn; unfold P.
    set (a := inject_Z (2 ^ n)) in *; set (mq := inject_Z m1) in *.
    set (Mq := inject_Z (Z.pos M)) in *; set (pe := p2 E) in *.
    assert (H1 : (2 * (mq * a - Mq) * pe <= a * pe)%Q)
      by (apply Qmult_le_compat_r; [exact Hup' | lra]).
    assert (H2 : (2 * (Mq - mq * a) * pe <= a * pe)%Q)
      by (apply Qmult_le_compat_r; [exact Hdn' | lra]).
    clearbody a mq Mq pe.
    split; [lra | split; [lra | lia]].
Qed.

(** Two multiples of a step that are half a step apart at most are equal. *)
Lemma grid_eq (a b : Z) (p : Q) :
  (0 < p)%Q ->
  (2 * (inject_Z a * p - inject_Z b * p) <= p)%Q ->
  (2 * (inject_Z b * p - inject_Z a * p) <= p)%Q ->
  a = b.
Proof.
  intros Hp H1 H2.
  assert (Ha : (inject_Z (2 * (a - b)) < inject_Z 2)%Q).
  { rewrite inject_Z_mult; unfold Z.sub; rewrite inject_Z_plus, inject_Z_opp.
    change (inject_Z 2) with 2%Q.
    set (x := inject_Z a) in *; set (y := inject_Z b) in *; clearbody x y.
    assert (2 * (x - y) * p <= 1 * p)%Q by lra.
    assert (2 * (x - y) <= 1)%Q by (apply (Qmult_le_r _ _ p Hp); assumption).
    lra. }
  assert (Hb : (inject_Z (2 * (b - a)) < inject_Z 2)%Q).
  { rewrite inject_Z_mult; unfold Z.sub; rewrite inject_Z_plus, inject_Z_opp.
    change (inject_Z 2) with 2%Q.
    set (x := inject_Z a) in *; set (y := inject_Z b) in *; clearbody x y.
    assert (2 * (y - x) * p <= 1 * p)%Q by lra.
    assert (2 * (y - x) <= 1)%Q by (apply (Qmult_le_r _ _ p Hp); assumption).
    lra. }
  rewrite <- Zlt_Qlt in Ha, Hb; lia.
Qed.

(** A value on a coarser grid is on every finer one. *)
Lemma grid_refine (c g e : Z) :
  e <= g -> (inject_Z c * p2 g == inject_Z (c * 2 ^ (g - e)) * p2 e)%Q.
Proof.
  intros H; rewrite inject_Z_mult, <- p2_int by lia.
  replace g with (g - e + e) at 1 by lia; rewrite p2_add; ring.
Qed.

(** *** Multiplication of floats that are not negative *)

Lemma SFmul_nonneg (x y : spec_float) (k : Z) :
  nonneg x -> nonneg y -> (SFv x * SFv y < p2 k)%Q -> k <= 971 ->
  let z := SFmul prec emax x y in
  nonneg z
  /\ exists (e' c : Z),
       -1074 <= e' <= Z.max (k - 53) (-1074)
       /\ (SFv z == inject_Z c * p2 e')%Q
       /\ (2 * (SFv z - SFv x * SFv y) <= p2 e')%Q
       /\ (2 * (SFv x * SFv y - SFv z) <= p2 e')%Q.
Proof.
  intros Hx Hy HP Hk z.
  assert (Hzero : forall s, nonneg (S754_zero s)
            /\ exists e' c : Z,
                 -1074 <= e' <= Z.max (k - 53) (-1074)
                 /\ (SFv (S754_zero s) == inject_Z c * p2 e')%Q
                 /\ (2 * (SFv (S754_zero s) - 0) <= p2 e')%Q
                 /\ (2 * (0 - SFv (S754_zero s)) <= p2 e')%Q).
  { intros s; split; [exact I |].
    exists (-1074), 0; pose proof (p2_pos (-1074)); cbn [SFv].
    split; [lia | split; [ring | split; lra]]. }
  destruct x as [sx | sx | | [|] mx ex]; try contradiction;
    destruct y as [sy | sy | | [|] my ey]; try contradiction;
    unfold z; cbn [SFmul SFv xorb].
  - destruct (Hzero (xorb sx sy)) as (Hn & e' & c & He & Hv & H1 & H2).
    split; [exact Hn |]; exists e', c.
    split; [exact He | split; [exact Hv | split; lra]].
  - destruct (Hzero sx) as (Hn & e' & c & He & Hv & H1 & H2).
    split; [exact Hn |]; exists e', c.
    split; [exact He | split; [exact Hv | split; lra]].
  - destruct (Hzero sy) as (Hn & e' & c & He & Hv & H1 & H2).
    split; [exact Hn |]; exists e', c.
    split; [exact He | split; [exact Hv | split; lra]].
  - assert (HPeq : (inject_Z (Z.pos (mx * my)) * p2 (ex + ey)
                    == inject_Z (Z.pos mx) * p2 ex
                       * (inject_Z (Z.pos my) * p2 ey))%Q).
    { rewrite Pos2Z.inj_mul, inject_Z_mult, p2_add; ring. }
    cbn [SFv] in HP; rewrite <- HPeq in HP.
    pose proof (round_aux_Q (mx * my) (ex + ey) k HP Hk) as Hr;
      cbv zeta in Hr.
    destruct Hr as (Hn & e' & c & He & Hv & H1 & H2 & _).
    split; [exact Hn |]; exists e', c.
    split; [exact He | split; [exact Hv |]].
    rewrite <- HPeq; split; assumption.
Qed.

(** A product that needs no more bits than a double has comes out exact. *)
Lemma SFmul_exact (x y : spec_float) (k g c : Z) :
  nonneg x -> nonneg y -> (SFv x * SFv y < p2 k)%Q -> k <= 971 ->
  (SFv x * SFv y == inject_Z c * p2 g)%Q -> Z.max (k - 53) (-1074) <= g ->
  nonneg (SFmul prec emax x y)
  /\ (SFv (SFmul prec emax x y) == SFv x * SFv y)%Q.
Proof.
  intros Hx Hy HP Hk Hgrid Hg.
  destruct (SFmul_nonneg x y k Hx Hy HP Hk)
    as (Hn & e' & cz & He & Hv & H1 & H2).
  split; [exact Hn |].
  rewrite (grid_refine c g e') in Hgrid by lia.
  rewrite Hgrid, Hv in H1, H2.
  rewrite Hgrid, Hv.
  rewrite (grid_eq cz (c * 2 ^ (g - e')) (p2 e') (p2_pos e') H1 H2).
  reflexivity.
Qed.

(** An exact value that fits the grid of its magnitude is not changed by
    rounding. *)
Lemma round_aux_exact (M : positive) (E k g c : Z) :
  (inject_Z (Z.pos M) * p2 E < p2 k)%Q -> k <= 971 ->
  (inject_Z (Z.pos M) * p2 E == inject_Z c * p2 g)%Q ->
  Z.max (k - 53) (-1074) <= g ->
  nonneg (binary_round_aux prec emax false (Z.pos M) E loc_Exact)
  /\ (SFv (binary_round_aux prec emax false (Z.pos M) E loc_Exact)
      == inject_Z (Z.pos M) * p2 E)%Q.
Proof.
  intros HP Hk Hgrid Hg.
  destruct (round_aux_Q M E k HP Hk) as (Hn & e' & cz & He & Hv & H1 & H2 & _).
  split; [exact Hn |].
  rewrite (grid_refine c g e') in Hgrid by lia.
  rewrite Hgrid, Hv in H1, H2.
  rewrite Hgrid, Hv.
  rewrite (grid_eq cz (c * 2 ^ (g - e')) (p2 e') (p2_pos e') H1 H2).
  reflexivity.
Qed.

Lemma iter_xO (m d : positive) :
  Z.pos (Pos.iter xO m d) = Z.pos m * 2 ^ Z.pos d.
Proof.
  induction d as [| d IH] using Pos.peano_ind.
  - cbn [Pos.iter]; change (2 ^ 1) with 2; lia.
  - rewrite Pos.iter_succ, Pos2Z.inj_succ, Z.pow_succ_r by lia.
    change (Z.pos (Pos.iter xO m d)~0) with (2 * Z.pos (Pos.iter xO m d)).
    rewrite IH; ring.
Qed.

Lemma shl_align_value (mx : positive) (ex ex' : Z) :
  (inject_Z (Z.pos (fst (shl_align mx ex ex'))) * p2 (snd (shl_align mx ex ex'))
   == inject_Z (Z.pos mx) * p2 ex)%Q.
Proof.
  unfold shl_align; destruct (ex' - ex) as [| d | d] eqn:E; cbn [fst snd];
    try reflexivity.
  rewrite iter_xO, inject_Z_mult, <- p2_int by lia.
  replace ex with (Z.pos d + ex') by lia; rewrite p2_add; ring.
Qed.

Lemma shl_align_fst (mx : positive) (ex ez : Z) :
  ez <= ex -> Z.pos (fst (shl_align mx ex ez)) = Z.pos mx * 2 ^ (ex - ez).
Proof.
  intros H; unfold shl_align; destruct (ez - ex) as [| d | d] eqn:E;
    cbn [fst]; try lia.
  - replace (ex - ez) with 0 by lia; lia.
  - rewrite iter_xO; replace (ex - ez) with (Z.pos d) by lia; reflexivity.
Qed.

Lemma binary_round_exact (D : positive) (e k g c : Z) :
  (inject_Z (Z.pos D) * p2 e < p2 k)%Q -> k <= 971 ->
  (inject_Z (Z.pos D) * p2 e == inject_Z c * p2 g)%Q ->
  Z.max (k - 53) (-1074) <= g ->
  nonneg (binary_round prec emax false D e)
  /\ (SFv (binary_round prec emax false D e) == inject_Z (Z.pos D) * p2 e)%Q.
Proof.
  intros HP Hk Hgrid Hg; unfold binary_round.
  pose proof (shl_align_value D e
                (fexp prec emax (Z.pos (digits2_pos D) + e))) as Hval.
  destruct (shl_align D e _) as [mz ez]; cbn [fst snd] in Hval.
  rewrite <- Hval in HP, Hgrid |- *.
  exact (round_aux_exact mz ez k g c HP Hk Hgrid Hg).
Qed.

(** *** Subtraction that is exact *)

Lemma SFsub_exact (x y : spec_float) (k g cx cy : Z) :
  nonneg x -> nonneg y -> (SFv y <= SFv x)%Q ->
  (SFv x - SFv y < p2 k)%Q -> k <= 971 ->
  (SFv x == inject_Z cx * p2 g)%Q -> (SFv y == inject_Z cy * p2 g)%Q ->
  Z.max (k - 53) (-1074) <= g ->
  nonneg (SFsub prec emax x y)
  /\ (SFv (SFsub prec emax x y) == SFv x - SFv y)%Q.
Proof.
  intros Hx Hy Hle HP Hk Hgx Hgy Hg.
  destruct x as [sx | sx | | [|] mx ex]; try contradiction;
    destruct y as [sy | sy | | [|] my ey]; try contradiction.
  - destruct sx, sy; cbn; split; try exact I; ring.
  - exfalso; cbn [SFv] in Hle.
    pose proof (p2_pos ey).
    assert (0 < inject_Z (Z.pos my))%Q
      by (change 0%Q with (inject_Z 0); rewrite <- Zlt_Qlt; lia).
    nra.
  - cbn [SFsub SFv]; split; [exact I | ring].
  - cbn [SFsub cond_Zopp].
    set (ez := Z.min ex ey).
    rewrite (shl_align_fst mx ex ez), (shl_align_fst my ey ez)
      by (unfold ez; lia).
    set (D := Z.pos mx * 2 ^ (ex - ez) - Z.pos my * 2 ^ (ey - ez)).
    assert (HD : (inject_Z D * p2 ez
                  == SFv (S754_finite false mx ex)
                     - SFv (S754_finite false my ey))%Q).
    { unfold D, Z.sub at 1.
      rewrite inject_Z_plus, inject_Z_opp, !inject_Z_mult.
      rewrite <- !p2_int by (unfold ez; lia); cbn [SFv].
      assert (Hex : (p2 ex == p2 (ex - ez) * p2 ez)%Q)
        by (rewrite <- p2_add; replace (ex - ez + ez) with ex by lia;
            reflexivity).
      assert (Hey : (p2 ey == p2 (ey - ez) * p2 ez)%Q)
        by (rewrite <- p2_add; replace (ey - ez + ez) with ey by lia;
            reflexivity).
      rewrite Hex, Hey; ring. }
    pose proof (p2_pos ez) as Hpz.
    destruct D as [| d | d] eqn:ED.
    + cbn [binary_normalize]; split; [exact I |].
      rewrite <- HD; cbn; ring.
    + cbn [binary_normalize]; rewrite <- HD in HP |- *.
      apply (binary_round_exact d ez k g (cx - cy)); [exact HP | exact Hk | |
                                                       exact Hg].
      rewrite HD, Hgx, Hgy; unfold Z.sub.
      rewrite inject_Z_plus, inject_Z_opp; ring.
    + exfalso.
      assert (inject_Z (Z.neg d) < 0)%Q
        by (change 0%Q with (inject_Z 0); rewrite <- Zlt_Qlt; lia).
      assert (inject_Z (Z.neg d) * p2 ez < 0)%Q by nra.
      lra.
Qed.

(** *** Operations on doubles *)

Definition fv (x : float) : Q := SFv (Prim2SF x).
Definition fnn (x : float) : Prop := nonneg (Prim2SF x).

Lemma fmul_nonneg (x y : float) (k : Z) :
  fnn x -> fnn y -> (fv x * fv y < p2 k)%Q -> k <= 971 ->
  fnn (x * y)%float
  /\ exists (e' c : Z),
       -1074 <= e' <= Z.max (k - 53) (-1074)
       /\ (fv (x * y)%float == inject_Z c * p2 e')%Q
       /\ (2 * (fv (x * y)%float - fv x * fv y) <= p2 e')%Q
       /\ (2 * (fv x * fv y - fv (x * y)%float) <= p2 e')%Q.
Proof.
  unfold fnn, fv; rewrite mul_spec; apply SFmul_nonneg.
Qed.

Lemma fmul_exact (x y : float) (k g c : Z) :
  fnn x -> fnn y -> (fv x * fv y < p2 k)%Q -> k <= 971 ->
  (fv x * fv y == inject_Z c * p2 g)%Q -> Z.max (k - 53) (-1074) <= g ->
  fnn (x * y)%float /\ (fv (x * y)%float == fv x * fv y)%Q.
Proof.
  unfold fnn, fv; rewrite mul_spec; apply SFmul_exact.
Qed.

Lemma fsub_exact (x y : float) (k g cx cy : Z) :
  fnn x -> fnn y -> (fv y <= fv x)%Q ->
  (fv x - fv y < p2 k)%Q -> k <= 971 ->
  (fv x == inject_Z cx * p2 g)%Q -> (fv y == inject_Z cy * p2 g)%Q ->
  Z.max (k - 53) (-1074) <= g ->
  fnn (x - y)%float /\ (fv (x - y)%float == fv x - fv y)%Q.
Proof.
  unfold fnn, fv; rewrite sub_spec; apply SFsub_exact.
Qed.

(** [int()] of a double that is not negative is the floor of its value. *)
Lemma trunc_mag_floor (m : positive) (e : Z) :
  (inject_Z (trunc_mag m e) <= inject_Z (Z.pos m) * p2 e)%Q
  /\ (inject_Z (Z.pos m) * p2 e < inject_Z (trunc_mag m e) + 1)%Q.
Proof.
  unfold trunc_mag; destruct (Z.leb_spec 0 e) as [He | He].
  - rewrite Z.shiftl_mul_pow2 by lia.
    rewrite inject_Z_mult, <- p2_int by lia; split; lra.
  - rewrite Z.shiftr_div_pow2 by lia.
    set (n := - e); assert (Hn : 0 < n) by (unfold n; lia).
    assert (Hp : 0 < 2 ^ n) by (apply Z.pow_pos_nonneg; lia).
    pose proof (Z.div_mod (Z.pos m) (2 ^ n) ltac:(lia)) as Hdm.
    pose proof (Z.mod_pos_bound (Z.pos m) (2 ^ n) Hp) as Hb.
    set (q := Z.pos m / 2 ^ n) in *; set (r := Z.pos m mod 2 ^ n) in *.
    assert (Hpe : (p2 e * inject_Z (2 ^ n) == 1)%Q).
    { rewrite <- p2_int, <- p2_add by lia.
      replace (e + n) with 0 by (unfold n; lia); reflexivity. }
    pose proof (p2_pos e) as Hpos.
    assert (Hm : (inject_Z (Z.pos m)
                  == inject_Z (2 ^ n) * inject_Z q + inject_Z r)%Q).
    { rewrite <- inject_Z_mult, <- inject_Z_plus, <- Hdm; reflexivity. }
    assert (Hr0 : (0 <= inject_Z r)%Q)
      by (change 0%Q with (inject_Z 0); rewrite <- Zle_Qle; lia).
    assert (Hr1 : (inject_Z r < inject_Z (2 ^ n))%Q)
      by (rewrite <- Zlt_Qlt; lia).
    rewrite Hm.
    set (a := inject_Z (2 ^ n)) in *; set (pe := p2 e) in *.
    set (qq := inject_Z q) in *; set (rr := inject_Z r) in *.
    clearbody a pe qq rr.
    assert (H1 : (0 <= rr * pe)%Q)
      by (apply Qmult_le_0_compat; [exact Hr0 | apply Qlt_le_weak, Hpos]).
    assert (H2 : (rr * pe < a * pe)%Q)
      by (apply Qmult_lt_compat_r; assumption).
    assert (H3 : ((a * qq + rr) * pe == qq * (pe * a) + rr * pe)%Q) by ring.
    rewrite H3, Hpe; split; lra.
Qed.

Lemma int_of_floor (x : float) :
  fnn x ->
  exists z : Z,
    float_int_of x = inr z
    /\ (inject_Z z <= fv x)%Q /\ (fv x < inject_Z z + 1)%Q.
Proof.
  unfold fnn, fv, float_int_of.
  destruct (Prim2SF x) as [s | s | | [|] m e]; try contradiction; intros _.
  - exists 0; split; [reflexivity |]; cbn [SFv].
    change (inject_Z 0) with 0%Q; split; lra.
  - exists (trunc_mag m e); split; [reflexivity |].
    cbn [SFv]; apply trunc_mag_floor.
Qed.

(** [float(i)] and [i / 60] for the ints that occur, by evaluation. *)
Definition of_int_ok (i : Z) : bool :=
  match Prim2SF (float_of_int i) with
  | S754_zero _ => i =? 0
  | S754_finite false m e =>
      (0 <=? e + 60) && (Z.pos m * 2 ^ (e + 60) =? i * 2 ^ 60)
  | _ => false
  end.

Definition int_div_ok (i : Z) : bool :=
  match Prim2SF (float_of_int i / float_of_int 60)%float with
  | S754_zero _ => i =? 0
  | S754_finite false m e =>
      (0 <=? e + 58)
      && (let c := Z.pos m * 2 ^ (e + 58) in
          (60 * c <=? i * 2 ^ 58 + 960)
          && (i * 2 ^ 58 - 960 <=? 60 * c)
          && (c <=? 2 ^ 29 * ((i * 2 ^ 29 + 59) / 60)))
  | _ => false
  end.

Lemma small_ints_ok :
  holds_from (fun i => of_int_ok i && int_div_ok i) 61 0 = true.
Proof. vm_compute; reflexivity. Qed.

Lemma of_int_small (i : Z) :
  0 <= i <= 60 -> fnn (float_of_int i) /\ (fv (float_of_int i) == inject_Z i)%Q.
Proof.
  intros Hi.
  pose proof (holds_from_spec _ _ 0 i small_ints_ok ltac:(lia)) as Hok.
  apply andb_true_iff in Hok as [Hok _].
  unfold of_int_ok in Hok; unfold fnn, fv.
  destruct (Prim2SF (float_of_int i)) as [s | s | | [|] m e];
    try discriminate.
  - apply Z.eqb_eq in Hok; subst i; split; [exact I | reflexivity].
  - apply andb_true_iff in Hok as [He Hv].
    apply Z.leb_le in He; apply Z.eqb_eq in Hv.
    split; [exact I |]; cbn [SFv].
    assert (H : (inject_Z (Z.pos m * 2 ^ (e + 60)) * p2 (-60)
                 == inject_Z (i * 2 ^ 60) * p2 (-60))%Q)
      by (rewrite Hv; reflexivity).
    rewrite !inject_Z_mult, <- !p2_int in H by lia.
    rewrite <- !Qmult_assoc, <- !p2_add in H.
    replace (e + 60 + -60) with e in H by lia.
    change (p2 (60 + -60)) with 1%Q in H.
    rewrite H; ring.
Qed.

Lemma int_div_small (i : Z) :
  0 <= i <= 60 ->
  fnn (float_of_int i / float_of_int 60)%float
  /\ exists c : Z,
       (fv (float_of_int i / float_of_int 60)%float
        == inject_Z c * p2 (-58))%Q
       /\ 0 <= c
       /\ 60 * c <= i * 2 ^ 58 + 960
       /\ i * 2 ^ 58 - 960 <= 60 * c
       /\ c <= 2 ^ 29 * ((i * 2 ^ 29 + 59) / 60).
Proof.
  intros Hi.
  pose proof (holds_from_spec _ _ 0 i small_ints_ok ltac:(lia)) as Hok.
  apply andb_true_iff in Hok as [_ Hok].
  unfold int_div_ok in Hok; unfold fnn, fv.
  destruct (Prim2SF (float_of_int i / float_of_int 60)%float)
    as [s | s | | [|] m e]; try discriminate.
  - apply Z.eqb_eq in Hok; subst i; split; [exact I |].
    exists 0; cbn [SFv]; split; [ring |].
    vm_compute; repeat split; discriminate.
  - apply andb_true_iff in Hok as [He Hv]; cbv zeta in Hv.
    apply andb_true_iff in Hv as [Hv H3].
    apply andb_true_iff in Hv as [H1 H2].
    apply Z.leb_le in He, H1, H2, H3.
    split; [exact I |].
    exists (Z.pos m * 2 ^ (e + 58)); cbn [SFv].
    split; [| split; [| repeat split; assumption]].
    + rewrite inject_Z_mult, <- p2_int, <- Qmult_assoc, <- p2_add by lia.
      replace (e + 58 + -58) with e by lia; reflexivity.
    + assert (0 < 2 ^ (e + 58)) by (apply Z.pow_pos_nonneg; lia); nia.
Qed.

(** ** The decomposition on doubles *)

Lemma p2_m29 : (p2 (-29) == 1 # 536870912)%Q.
Proof. vm_compute; reflexivity. Qed.
Lemma p2_m27 : (p2 (-27) == 1 # 134217728)%Q.
Proof. vm_compute; reflexivity. Qed.
Lemma p2_m58 : (p2 (-58) == 1 # 288230376151711744)%Q.
Proof. vm_compute; reflexivity. Qed.
Lemma p2_m52 : (p2 (-52) == 1 # 4503599627370496)%Q.
Proof. vm_compute; reflexivity. Qed.
Lemma p2_m46 : (p2 (-46) == 1 # 70368744177664)%Q.
Proof. vm_compute; reflexivity. Qed.
Lemma p2_m5 : (p2 (-5) == 1 # 32)%Q.
Proof. vm_compute; reflexivity. Qed.

Lemma Zle_of_Q (a b : Z) : (inject_Z a <= inject_Z b)%Q -> a <= b.
Proof. intros H; rewrite Zle_Qle; exact H. Qed.
Lemma Zlt_of_Q (a b : Z) : (inject_Z a < inject_Z b)%Q -> a < b.
Proof. intros H; rewrite Zlt_Qlt; exact H. Qed.

(** The decomposition of a time of day on the grid of [2^-29] hours. *)
Lemma hms_on_grid (tm : float) (n : Z) :
  fnn tm -> (fv tm == inject_Z n * p2 (-29))%Q -> 0 <= n < 24 * 2 ^ 29 ->
  exists hh mm ss : Z,
    @hms float binary64 tm = timedelta_new hh mm ss
    /\ 0 <= hh < 24 /\ 0 <= mm < 60 /\ 0 <= ss < 60
    /\ (inject_Z hh <= fv tm)%Q /\ (fv tm < inject_Z hh + 1)%Q
    /\ (inject_Z mm <= (fv tm - inject_Z hh) * 60)%Q
    /\ ((fv tm - inject_Z hh) * 60 < inject_Z mm + 1)%Q
    /\ (inject_Z ss <= (fv tm - inject_Z hh) * 3600 - inject_Z mm * 60)%Q
    /\ ((fv tm - inject_Z hh) * 3600 - inject_Z mm * 60 <= inject_Z ss + 1)%Q.
Proof.
  intros Hnn Hgrid Hn.
  assert (Hn0 : (0 <= inject_Z n)%Q)
    by (change 0%Q with (inject_Z 0); rewrite <- Zle_Qle; lia).
  assert (Hn1 : (inject_Z n < inject_Z (24 * 2 ^ 29))%Q)
    by (rewrite <- Zlt_Qlt; lia).
  change (inject_Z (24 * 2 ^ 29)) with 12884901888%Q in Hn1.
  (* hours *)
  destruct (int_of_floor tm Hnn) as (hh & Hhh & Hh1 & Hh2).
  assert (Hhr : 0 <= hh < 24).
  { rewrite Hgrid, p2_m29 in Hh1, Hh2; split.
    - assert (H : (inject_Z (-1) < inject_Z hh)%Q)
        by (change (inject_Z (-1)) with (-1)%Q; lra).
      apply Zlt_of_Q in H; lia.
    - apply Zlt_of_Q; change (inject_Z 24) with 24%Q; lra. }
  destruct (of_int_small hh ltac:(lia)) as (Ha_nn & Ha_v).
  set (a := float_of_int hh) in *.
  (* the fraction of the hour *)
  set (n1 := n - hh * 2 ^ 29).
  assert (Hn1q : (inject_Z n1 == inject_Z n - inject_Z hh * 536870912)%Q).
  { unfold n1, Z.sub; rewrite inject_Z_plus, inject_Z_opp, inject_Z_mult.
    change (inject_Z (2 ^ 29)) with 536870912%Q; ring. }
  assert (Hfr : 0 <= n1 < 2 ^ 29).
  { rewrite Hgrid, p2_m29 in Hh1, Hh2; split.
    - apply Zle_of_Q; rewrite Hn1q; change (inject_Z 0) with 0%Q; lra.
    - apply Zlt_of_Q; rewrite Hn1q.
      change (inject_Z (2 ^ 29)) with 536870912%Q; lra. }
  destruct (fsub_exact tm a 0 (-29) n (hh * 2 ^ 29) Hnn Ha_nn)
    as (Hr_nn & Hr_v).
  { rewrite Ha_v; exact Hh1. }
  { rewrite Ha_v; change (p2 0) with 1%Q; lra. }
  { lia. }
  { exact Hgrid. }
  { rewrite Ha_v, inject_Z_mult, p2_m29.
    change (inject_Z (2 ^ 29)) with 536870912%Q; field. }
  { lia. }
  set (r1 := (tm - a)%float) in *.
  assert (Hf : (fv r1 == inject_Z n1 * p2 (-29))%Q).
  { rewrite Hr_v, Ha_v, Hgrid, Hn1q, p2_m29; field. }
  assert (Hn1a : (0 <= inject_Z n1)%Q)
    by (change 0%Q with (inject_Z 0); rewrite <- Zle_Qle; lia).
  assert (Hn1b : (inject_Z n1 < 536870912)%Q)
    by (change 536870912%Q with (inject_Z (2 ^ 29)); rewrite <- Zlt_Qlt; lia).
  (* minutes *)
  destruct (of_int_small 60 ltac:(lia)) as (Hc_nn & Hc_v).
  set (c60 := float_of_int 60) in *.
  change (inject_Z 60) with 60%Q in Hc_v.
  destruct (fmul_exact r1 c60 6 (-27) (15 * n1) Hr_nn Hc_nn)
    as (Hm_nn & Hm_v).
  { rewrite Hf, Hc_v, p2_m29; change (p2 6) with 64%Q; lra. }
  { lia. }
  { rewrite Hf, Hc_v, p2_m29, p2_m27, inject_Z_mult.
    change (inject_Z 15) with 15%Q; field. }
  { lia. }
  set (minutes := (r1 * c60)%float) in *.
  destruct (int_of_floor minutes Hm_nn) as (mm & Hmm & Hm1 & Hm2).
  rewrite Hm_v, Hf, Hc_v, p2_m29 in Hm1, Hm2.
  assert (Hmr : 0 <= mm < 60).
  { split.
    - assert (H : (inject_Z (-1) < inject_Z mm)%Q)
        by (change (inject_Z (-1)) with (-1)%Q; lra).
      apply Zlt_of_Q in H; lia.
    - apply Zlt_of_Q; change (inject_Z 60) with 60%Q; lra. }
  assert (HmZ : mm * 2 ^ 29 <= 60 * n1 < (mm + 1) * 2 ^ 29).
  { split.
    - apply Zle_of_Q; rewrite !inject_Z_mult.
      change (inject_Z (2 ^ 29)) with 536870912%Q.
      change (inject_Z 60) with 60%Q; lra.
    - apply Zlt_of_Q; rewrite !inject_Z_mult, inject_Z_plus.
      change (inject_Z (2 ^ 29)) with 536870912%Q.
      change (inject_Z 60) with 60%Q; change (inject_Z 1) with 1%Q; lra. }
  (* what is left of the minute *)
  destruct (int_div_small mm ltac:(lia)) as (Hq_nn & c & Hq_v & Hc0 & Hc1 & Hc2 & Hc3).
  set (q := (float_of_int mm / float_of_int 60)%float) in *.
  assert (Hceil : (mm * 2 ^ 29 + 59) / 60 <= n1).
  { apply Z.lt_succ_r, Z.div_lt_upper_bound; lia. }
  assert (Hcn : c <= n1 * 2 ^ 29) by nia.
  assert (Hdc : n1 * 2 ^ 29 - c < 2 ^ 53) by lia.
  assert (Hf58 : (fv r1 == inject_Z (n1 * 2 ^ 29) * p2 (-58))%Q).
  { rewrite Hf, inject_Z_mult, p2_m29, p2_m58.
    change (inject_Z (2 ^ 29)) with 536870912%Q; field. }
  assert (Hcq : (inject_Z c <= inject_Z (n1 * 2 ^ 29))%Q)
    by (rewrite <- Zle_Qle; exact Hcn).
  assert (Hdq : (inject_Z (n1 * 2 ^ 29) - inject_Z c < 9007199254740992)%Q).
  { assert (H : (inject_Z (n1 * 2 ^ 29 - c) < inject_Z (2 ^ 53))%Q)
      by (rewrite <- Zlt_Qlt; exact Hdc).
    unfold Z.sub in H; rewrite inject_Z_plus, inject_Z_opp in H.
    change (inject_Z (2 ^ 53)) with 9007199254740992%Q in H; lra. }
  destruct (fsub_exact r1 q (-5) (-58) (n1 * 2 ^ 29) c Hr_nn Hq_nn)
    as (Hd_nn & Hd_v).
  { rewrite Hf58, Hq_v, p2_m58; lra. }
  { rewrite Hf58, Hq_v, p2_m58, p2_m5; lra. }
  { lia. }
  { exact Hf58. }
  { exact Hq_v. }
  { lia. }
  set (d := (r1 - q)%float) in *.
  assert (Hc1q : (60 * inject_Z c
                  <= inject_Z mm * 288230376151711744 + 960)%Q).
  { assert (H : (inject_Z (60 * c) <= inject_Z (mm * 2 ^ 58 + 960))%Q)
      by (rewrite <- Zle_Qle; exact Hc1).
    rewrite inject_Z_plus, !inject_Z_mult in H.
    change (inject_Z (2 ^ 58)) with 288230376151711744%Q in H.
    change (inject_Z 60) with 60%Q in H; change (inject_Z 960) with 960%Q in H.
    exact H. }
  assert (Hc2q : (inject_Z mm * 288230376151711744 - 960
                  <= 60 * inject_Z c)%Q).
  { assert (H : (inject_Z (mm * 2 ^ 58 - 960) <= inject_Z (60 * c))%Q)
      by (rewrite <- Zle_Qle; exact Hc2).
    unfold Z.sub in H; rewrite inject_Z_plus, !inject_Z_mult in H.
    change (inject_Z (2 ^ 58)) with 288230376151711744%Q in H.
    change (inject_Z 60) with 60%Q in H.
    change (inject_Z (- (960))) with (-960)%Q in H; lra. }
  (* seconds *)
  rewrite Hf58, Hq_v, p2_m58 in Hd_v.
  rewrite inject_Z_mult in Hd_v, Hcq, Hdq.
  change (inject_Z (2 ^ 29)) with 536870912%Q in Hd_v, Hcq, Hdq.
  destruct (fmul_nonneg d c60 1 Hd_nn Hc_nn) as (Hp_nn & e1 & c1 & He1 & _ & Hp1 & Hp2).
  { rewrite Hd_v, Hc_v; change (p2 1) with 2%Q; lra. }
  { lia. }
  set (p1 := (d * c60)%float) in *.
  assert (He1' : (p2 e1 <= 1 # 4503599627370496)%Q)
    by (rewrite <- p2_m52; apply p2_le; lia).
  rewrite Hd_v, Hc_v in Hp1, Hp2.
  destruct (fmul_nonneg p1 c60 7 Hp_nn Hc_nn) as (Hs_nn & e2 & c2 & He2 & _ & Hs1 & Hs2).
  { rewrite Hc_v; change (p2 7) with 128%Q; lra. }
  { lia. }
  set (s2 := (p1 * c60)%float) in *.
  assert (He2' : (p2 e2 <= 1 # 70368744177664)%Q)
    by (rewrite <- p2_m46; apply p2_le; lia).
  rewrite Hc_v in Hs1, Hs2.
  destruct (int_of_floor s2 Hs_nn) as (ss & Hss & Hs3 & Hs4).
  (* the seconds against the exact ones *)
  set (T := 225 * n1 - 60 * 2 ^ 25 * mm).
  assert (HTq : (inject_Z T
                 == 225 * inject_Z n1 - 2013265920 * inject_Z mm)%Q).
  { unfold T, Z.sub; rewrite inject_Z_plus, inject_Z_opp, !inject_Z_mult.
    change (inject_Z 225) with 225%Q; change (inject_Z 60) with 60%Q.
    change (inject_Z (2 ^ 25)) with 33554432%Q; ring. }
  assert (HTr : 0 <= T < 60 * 2 ^ 25) by (unfold T; lia).
  pose proof (SFv_nonneg (Prim2SF s2)) as Hs0; fold (fv s2) in Hs0.
  pose proof (SFv_nonneg (Prim2SF p1)) as Hp0; fold (fv p1) in Hp0.
  assert (Hup : ss * 2 ^ 25 <= T).
  { apply Z.lt_succ_r, Zlt_of_Q.
    rewrite inject_Z_mult; unfold Z.succ; rewrite inject_Z_plus, HTq.
    change (inject_Z (2 ^ 25)) with 33554432%Q.
    change (inject_Z 1) with 1%Q; lra. }
  assert (Hdn : T <= (ss + 1) * 2 ^ 25).
  { apply Z.lt_succ_r, Zlt_of_Q.
    rewrite HTq; unfold Z.succ; rewrite inject_Z_plus, inject_Z_mult.
    rewrite inject_Z_plus.
    change (inject_Z (2 ^ 25)) with 33554432%Q.
    change (inject_Z 1) with 1%Q; lra. }
  assert (Hsr : 0 <= ss < 60).
  { split; [| lia].
    assert (H : (inject_Z (-1) < inject_Z ss)%Q)
      by (change (inject_Z (-1)) with (-1)%Q; lra).
    apply Zlt_of_Q in H; lia. }
  exists hh, mm, ss.
  split.
  { unfold hms; cbn [int_of of_int fsub fmul int_div binary64 ebind].
    rewrite Hhh; cbn [ebind]; fold a; fold r1; fold c60; fold minutes.
    rewrite Hmm; cbn [ebind].
    change (ebind (float_int_of s2) (fun i => timedelta_new hh mm i)
            = timedelta_new hh mm ss).
    rewrite Hss; reflexivity. }
  split; [exact Hhr | split; [exact Hmr | split; [exact Hsr |]]].
  split; [exact Hh1 | split; [exact Hh2 |]].
  assert (HupQ : (inject_Z ss * 33554432 <= inject_Z T)%Q).
  { change 33554432%Q with (inject_Z (2 ^ 25)).
    rewrite <- inject_Z_mult, <- Zle_Qle; exact Hup. }
  assert (HdnQ : (inject_Z T <= (inject_Z ss + 1) * 33554432)%Q).
  { change 33554432%Q with (inject_Z (2 ^ 25)); change 1%Q with (inject_Z 1).
    rewrite <- inject_Z_plus, <- inject_Z_mult, <- Zle_Qle; exact Hdn. }
  rewrite Hgrid, p2_m29.
  rewrite Hgrid, p2_m29 in Hh1, Hh2.
  repeat split; lra.
Qed.

Lemma floor_unique (x : Q) (z : Z) :
  (inject_Z z <= x)%Q -> (x < inject_Z z + 1)%Q -> z = Qfloor x.
Proof.
  intros H1 H2.
  pose proof (Qfloor_le x) as F1; pose proof (Qlt_floor x) as F2.
  rewrite inject_Z_plus in F2; change (inject_Z 1) with 1%Q in F2.
  assert (A : (inject_Z z < inject_Z (Qfloor x + 1))%Q)
    by (rewrite inject_Z_plus; change (inject_Z 1) with 1%Q; lra).
  assert (B : (inject_Z (Qfloor x) < inject_Z (z + 1))%Q)
    by (rewrite inject_Z_plus; change (inject_Z 1) with 1%Q; lra).
  rewrite <- Zlt_Qlt in A, B; lia.
Qed.

(** The value [float_value] gives to a double that is not negative is the
    value of its mantissa and exponent. *)
Lemma float_value_fv (x : float) (v : Q) :
  float_value x = Some v -> (0 <= v)%Q -> fnn x /\ (fv x == v)%Q.
Proof.
  unfold float_value, fnn, fv.
  destruct (Prim2SF x) as [s | s | | s m e]; try discriminate.
  - intros [= <-] _; split; [exact I | reflexivity].
  - intros [= <-].
    assert (Hmag : ((if 0 <=? e then inject_Z (Z.shiftl (Z.pos m) e)
                     else Z.pos m # 2 ^ Z.to_pos (- e))
                    == inject_Z (Z.pos m) * p2 e)%Q).
    { destruct (Z.leb_spec 0 e) as [He | He].
      - rewrite Z.shiftl_mul_pow2, inject_Z_mult, <- p2_int by lia.
        reflexivity.
      - rewrite Qmake_Qdiv, Pos2Z.inj_pow, Z2Pos.id by lia.
        change (Z.pos 2) with 2; rewrite <- p2_int by lia.
        assert (Hinv : (p2 e == / p2 (- e))%Q).
        { unfold p2; rewrite <- Qpower_opp.
          replace (- - e) with e by lia; reflexivity. }
        rewrite Hinv; reflexivity. }
    pose proof (p2_pos e) as Hp.
    assert (Hm : (0 < inject_Z (Z.pos m))%Q)
      by (change 0%Q with (inject_Z 0); rewrite <- Zlt_Qlt; lia).
    assert (Hpos : (0 < inject_Z (Z.pos m) * p2 e)%Q)
      by (apply Qmult_lt_0_compat; assumption).
    destruct s; intros Hv.
    + exfalso; rewrite Hmag in Hv; lra.
    + split; [exact I |]; cbn [SFv]; rewrite Hmag; reflexivity.
Qed.

Lemma grid_value (n : Z) :
  (n # 536870912 == inject_Z n * (1 # 536870912))%Q.
Proof. unfold Qeq, Qmult, inject_Z; cbn [Qnum Qden]; lia. Qed.

Section DecompositionOnDoubles.
Context {K : swe.constants}.

(** C3.  On doubles, as the module runs.  For an object that is not a focal
    point, when the search finds an event on the queried day and the engine
    converts it back to the time of day [tm], a double that is not negative,
    is below 24 and is a whole multiple of 2^-29 hours, the query returns a
    duration built from three truncations: the hours are the floor of [tm],
    the minutes the floor of the sixtyfold of what is left, and the seconds
    an int that does not exceed the seconds left and is at most one below
    them.  So the reconstructed value hours + minutes/60 + seconds/3600
    never exceeds [tm], and is never more than a second below it.

    The multiple of 2^-29 hours is the assumption made of the engine: it
    converts a Julian day number held in a double, which for every date a
    [datetime] can hold lies between 2^20 and 2^23, where doubles are 2^-32
    days apart or more, that is 3 * 2^-29 hours. *)
Theorem decomposition_never_exceeds (e : event) (self : pyobj)
  (when : datetime) (location : GeoLocation float) (S : Type)
  (h : swe.engine float S) (s s2 s3 : S) (tret : swe.vec10 float)
  (tm : float) (v : Q) (n : Z) :
  is_focal_point self = false ->
  search_answers h self when location (kind_of e) s (inr (0, tret)) s2 ->
  converts_back h (tret0 tret) s2 (year when) (month when) (day when) tm s3 ->
  float_value tm = Some v ->
  (v == n # 536870912)%Q -> 0 <= n < 24 * 2 ^ 29 ->
  exists (hh mm ss : Z) (td : timedelta),
    outcome h (query e self when location) s = inr (Some td)
    /\ timedelta_new hh mm ss = inr td
    /\ hh = Qfloor v
    /\ mm = Qfloor ((v - inject_Z hh) * 60)
    /\ 0 <= hh < 24 /\ 0 <= mm < 60 /\ 0 <= ss < 60
    /\ (inject_Z ss <= (v - inject_Z hh) * 3600 - inject_Z mm * 60)%Q
    /\ ((v - inject_Z hh) * 3600 - inject_Z mm * 60 <= inject_Z ss + 1)%Q
    /\ total_seconds td = hh * 3600 + mm * 60 + ss
    /\ (hours_of td <= v)%Q
    /\ (v <= hours_of td + (1 # 3600))%Q.
Proof.
  intros Hf (tjdut & s1 & body & Hjd & Hid & Hrt) Hrev Hval Hgrid Hn.
  assert (Hn0 : (0 <= inject_Z n)%Q)
    by (change 0%Q with (inject_Z 0); rewrite <- Zle_Qle; lia).
  assert (Hv0 : (0 <= v)%Q) by (rewrite Hgrid, grid_value; lra).
  destruct (float_value_fv tm v Hval Hv0) as (Hnn & Hfv).
  assert (Hg : (fv tm == inject_Z n * p2 (-29))%Q).
  { rewrite Hfv, Hgrid, p2_m29, grid_value; reflexivity. }
  destruct (hms_on_grid tm n Hnn Hg Hn)
    as (hh & mm & ss & Hhms & Hhr & Hmr & Hsr & Hh1 & Hh2 & Hm1 & Hm2
        & Hs1 & Hs2).
  rewrite Hfv in Hh1, Hh2, Hm1, Hm2, Hs1, Hs2.
  destruct (timedelta_in_range hh mm ss ltac:(lia) Hmr Hsr)
    as (td & Htd & Htot).
  exists hh, mm, ss, td.
  split.
  { rewrite query_rise_trans; unfold outcome.
    rewrite (exec_rise_trans h _ _ _ _ _ _ _ _ _ _ Hf Hjd Hid Hrt).
    cbn [Z.eqb negb].
    rewrite (exec_day_check h _ _ _ _ _ _ _ _ Hrev).
    rewrite !Z.eqb_refl; cbn [negb orb fst].
    rewrite Hhms, Htd; reflexivity. }
  split; [exact Htd |].
  split; [apply floor_unique; assumption |].
  split; [apply floor_unique; assumption |].
  split; [exact Hhr | split; [exact Hmr | split; [exact Hsr |]]].
  split; [exact Hs1 | split; [exact Hs2 | split; [exact Htot |]]].
  pose proof (hours_of_fields td hh mm ss Htot) as Hho.
  unfold Qdiv in Hho.
  change (/ 60)%Q with (1 # 60)%Q in Hho.
  change (/ 3600)%Q with (1 # 3600)%Q in Hho.
  rewrite Hho; split; lra.
Qed.
End DecompositionOnDoubles.

(** The hypothesis on the engine's answers cannot be dropped.  The double
    nearest to 0.35 is no multiple of 2^-29; it lies just below 7/20, its
    sixtyfold rounds up to 21.0, and its decomposition is 0:21:00, which is
    7/20 of an hour and exceeds it. *)
Lemma off_grid_decomposition_exceeds :
  @hms float binary64 0x1.6666666666666p-2%float
  = inr {| td_days := 0; td_seconds := 1260; td_microseconds := 0 |}
  /\ float_value 0x1.6666666666666p-2%float
     = Some (6305039478318694 # 18014398509481984)%Q
  /\ ~ (hours_of {| td_days := 0; td_seconds := 1260; td_microseconds := 0 |}
        <= 6305039478318694 # 18014398509481984)%Q
  /\ forall n : Z,
       ~ (6305039478318694 # 18014398509481984 == n # 536870912)%Q.
Proof.
  split; [vm_compute; reflexivity |].
  split; [vm_compute; reflexivity |].
  split; [unfold Qle, hours_of, total_seconds; cbn; lia |].
  intros n; unfold Qeq; cbn [Qnum Qden]; lia.
Qed.

(** ** Construction and identity *)

Section Construction.
Context {K : swe.constants}.

Lemma py_or_None (b : exn + Z) : py_or None b = b.
Proof. reflexivity. Qed.

Lemma getattr_setattr_eq self a v : getattr (setattr self a v) a = inr v.
Proof. unfold getattr, setattr; cbn [attrs]; rewrite lookup_insert_eq; reflexivity. Qed.

Lemma getattr_setattr_ne self a b v :
  a <> b -> getattr (setattr self a v) b = getattr self b.
Proof.
  intros Hne; unfold getattr, setattr; cbn [attrs].
  rewrite lookup_insert_ne by exact Hne; reflexivity.
Qed.

(** C5.  Construction from a name alone ([swe_code] left at its default
    [None]) looks the name up in the catalog [NAMES].  A name that is not in
    it makes the constructor raise [Exception('Unknown planet <name>')], so
    the caller gets no object; "VULCAN" is such a name.  A name in the catalog
    gives an object of the class asked for, with that name, whose [swe_id()]
    is the catalog's code.  [Planet] and [BlackSun] alike. *)
Theorem construction_by_name (name : string) :
  match NAMES !! name with
  | None =>
      Planet_init name None = inl (Exception ("Unknown planet " +:+ name))
      /\ BlackSun_init name None = inl (Exception ("Unknown planet " +:+ name))
  | Some code =>
      (exists p, Planet_init name None = inr p
                 /\ class_of p = Planet
                 /\ getattr p "name" = inr (VStr name)
                 /\ swe_id p = inr (VInt code))
      /\ (exists b, BlackSun_init name None = inr b
                    /\ class_of b = BlackSun
                    /\ getattr b "name" = inr (VStr name)
                    /\ swe_id b = inr (VInt code))
  end
  /\ NAMES !! "VULCAN" = None
  /\ Planet_init "VULCAN" None = inl (Exception "Unknown planet VULCAN").
Proof.
  split; [| split; reflexivity].
  unfold BlackSun_init, Apside_init, Planet_init, swe_id_by_name.
  destruct (NAMES !! name) as [code |]; cbn [py_or ebind]; [| split; reflexivity].
  split; eexists; (split; [reflexivity |]); (split; [reflexivity |]).
  - split; [| apply getattr_setattr_eq].
    rewrite getattr_setattr_ne by discriminate; apply getattr_setattr_eq.
  - split; [| apply getattr_setattr_eq].
    rewrite getattr_setattr_ne by discriminate; apply getattr_setattr_eq.
Qed.

(** The catalog is keyed by upper-case names, so the objects the module
    builds when it is loaded ([Planet.Sun = Planet("Sun")] and the like) are
    refused. *)
Lemma module_planets_are_unknown :
  Forall (fun name =>
            Planet_init name None
            = inl (Exception ("Unknown planet " +:+ name)))
    ["Sun"; "Moon"; "Mercury"; "Venus"; "Earth"; "Mars"; "Jupiter";
     "Saturn"; "Uranus"; "Neptune"; "Pluto"].
Proof. repeat constructor. Qed.

(** An explicit code that is truthy is taken without a look at the catalog;
    the code 0 is falsy and sends the constructor to the catalog. *)
Lemma explicit_code (name : string) (code : Z) :
  (code <> 0 ->
   exists p, Planet_init name (Some code) = inr p /\ swe_id p = inr (VInt code))
  /\ Planet_init name (Some 0) = Planet_init name None.
Proof.
  split; [| reflexivity].
  intros Hc; unfold Planet_init; cbn [py_or].
  apply Z.eqb_neq in Hc; rewrite Hc; cbn [ebind].
  eexists; split; [reflexivity | apply getattr_setattr_eq].
Qed.
End Construction.

(** ** The second focal point *)

Section BlackSuns.
Context {F : Type} {PF : PyFloat F} {CO : Coords F} {K : swe.constants}.

(** What [BlackSun] is written to ask of the engine: with an attribute
    [_BlackSun__swe_code] on the object, the node and apsides call carries the
    focal-point bit, with the osculating bit unless [mean] is set. *)
Lemma black_sun_intended_call (self : pyobj) (jd : F) (mean : bool) (code : pyval) :
  getattr self "_BlackSun__swe_code" = inr code ->
  (exists k, BlackSun_swe_ecl_coord self jd mean
             = Call (swe.nod_aps_ut jd code
                       (if mean then swe.NODBIT_FOPOINT
                        else Z.lor swe.NODBIT_FOPOINT swe.NODBIT_OSCU)
                       (Z.lor swe.FLG_SWIEPH swe.FLG_TOPOCTR)) k)
  /\ (exists k, BlackSun_swe_equator_coord self jd mean
                = Call (swe.nod_aps_ut jd code
                          (if mean then swe.NODBIT_FOPOINT
                           else Z.lor swe.NODBIT_FOPOINT swe.NODBIT_OSCU)
                          (Z.lor (Z.lor swe.FLG_SWIEPH swe.FLG_TOPOCTR)
                                 swe.FLG_EQUATORIAL)) k).
Proof.
  intros Hget.
  unfold BlackSun_swe_ecl_coord, BlackSun_swe_equator_coord.
  change (mangle "BlackSun" "__swe_code") with "_BlackSun__swe_code"%string.
  rewrite Hget; destruct mean; cbn; split; eexists; reflexivity.
Qed.

(** C4, what the code does.  A [BlackSun] as its constructor leaves it has
    the attribute [_Apside__swe_code] and no [_BlackSun__swe_code]: both
    coordinate accessors raise AttributeError before the node and apsides call
    is made, for [mean] false and true alike, and so do the coordinate
    queries, after setting the frame and asking for the time reference.  The
    transit queries do return [None] without an engine call. *)
Theorem black_sun_coordinates_raise (name : string) (code : option Z)
  (jd : F) (mean : bool) (time : datetime) (location : GeoLocation F)
  (S : Type) (h : swe.engine F S) (s : S) :
  match BlackSun_init name code with
  | inl _ => True
  | inr self =>
      BlackSun_swe_ecl_coord self jd mean
      = Raise (AttributeError "_BlackSun__swe_code")
      /\ BlackSun_swe_equator_coord self jd mean
         = Raise (AttributeError "_BlackSun__swe_code")
      /\ Forall (fun c => swe.is_nod_aps_ut c = false)
           (calls h (ecl_coord self time location) s
            ++ calls h (equator_coord self time location) s
            ++ calls h (hor_coord self time location) s)
      /\ (forall o, outcome h (ecl_coord self time location) s <> inr o)
      /\ (forall e : event,
            exec h (query e self time location) s = (inr None, s, []))
  end.
Proof.
  unfold BlackSun_init, Apside_init.
  destruct (py_or code (swe_id_by_name name)) as [err | c]; cbn [ebind];
    [exact I |].
  set (self := setattr _ _ _).
  assert (Hmiss : getattr self (mangle "BlackSun" "__swe_code")
                  = inl (AttributeError "_BlackSun__swe_code")) by reflexivity.
  assert (He : forall j m, BlackSun_swe_ecl_coord self j m
                           = Raise (AttributeError "_BlackSun__swe_code")).
  { intros j m; unfold BlackSun_swe_ecl_coord; rewrite Hmiss; reflexivity. }
  assert (Hq : forall j m, BlackSun_swe_equator_coord self j m
                           = Raise (AttributeError "_BlackSun__swe_code")).
  { intros j m; unfold BlackSun_swe_equator_coord; rewrite Hmiss; reflexivity. }
  assert (Hse : forall j, swe_ecl_coord self j
                          = Raise (AttributeError "_BlackSun__swe_code")).
  { intros j; apply He. }
  assert (Hsq : forall j, swe_equator_coord self j
                          = Raise (AttributeError "_BlackSun__swe_code")).
  { intros j; apply Hq. }
  split; [apply He | split; [apply Hq |]].
  split; [| split].
  - rewrite !Forall_app; repeat split; apply every_call_run;
      unfold ecl_coord, equator_coord, hor_coord; calls_of;
      try reflexivity; rewrite ?Hse, ?Hsq; exact I.
  - intros o; unfold outcome, ecl_coord, perform; cbn [bind exec].
    destruct (h _ s) as [[msg | r] s1]; [discriminate |].
    destruct (h _ s1) as [[msg | jd'] s2]; [discriminate |].
    rewrite Hse; discriminate.
  - intros e; rewrite query_rise_trans, rise_trans_focal; reflexivity.
Qed.
End BlackSuns.

(** ** The statements at concrete inputs *)

(** The canned engines keep everything but the frame. *)
Lemma canned_frame_only {F : Type} {PF : PyFloat F} found ymd (tm : F) :
  frame_only (canned found ymd tm).
Proof. intros c s Hc; destruct c; try discriminate Hc; reflexivity. Qed.

Lemma canned_set_topo_settles {F : Type} {PF : PyFloat F} found ymd (tm : F) :
  set_topo_settles (canned found ymd tm).
Proof. intros lon lat s; reflexivity. Qed.

Ltac canned_answers :=
  do 3 eexists; split; [reflexivity | split; reflexivity].

Section AtConcreteInputs.
Local Existing Instance swisseph.

(** [BlackSun("BS Earth", swe.EARTH)] on 15 March 2024. *)
Lemma focal_point_has_no_transits_witness :
  is_focal_point BS_Earth = true
  /\ exec (canned 0 (2024, 3, 15) 0.375%float)
       (transits BS_Earth noon observer64) (0%float, 0%float)
     = (inr (transit_dict None None None None), (0%float, 0%float), []).
Proof.
  split; [reflexivity |].
  exact (proj1 (proj2
    (focal_point_has_no_transits BS_Earth noon observer64 _
       (canned 0 (2024, 3, 15) 0.375%float) (0%float, 0%float) eq_refl))).
Defined.

(** Mars, queried for 15 March, with an engine that finds the next rise on
    16 March. *)
Lemma other_day_is_absent_witness :
  exists tret s2 s3,
    search_answers (canned 0 (2024, 3, 16) 0.5%float) Mars noon observer64
      (kind_of rise) (0%float, 0%float) (inr (0, tret)) s2
    /\ converts_back (canned 0 (2024, 3, 16) 0.5%float) (tret0 tret) s2
         2024 3 16 0.5%float s3
    /\ (2024 <> year noon \/ 3 <> month noon \/ 16 <> day noon)
    /\ outcome (canned 0 (2024, 3, 16) 0.5%float)
         (query rise Mars noon observer64) (0%float, 0%float)
       = inr None.
Proof.
  do 3 eexists.
  split; [canned_answers |].
  split; [reflexivity |].
  split; [right; right; discriminate |].
  eapply (other_day_is_absent rise Mars noon observer64);
    [canned_answers | reflexivity | right; right; discriminate].
Defined.
(** Mars on 15 March 2024, found rising at 6.375 h, a multiple of 2^-29
    hours: 6:22:30. *)
Lemma decomposition_never_exceeds_witness :
  is_focal_point Mars = false
  /\ (exists tret s2 s3,
        search_answers (canned 0 (2024, 3, 15) 0x1.98p+2%float) Mars noon
          observer64 (kind_of rise) (0%float, 0%float) (inr (0, tret)) s2
        /\ converts_back (canned 0 (2024, 3, 15) 0x1.98p+2%float)
             (tret0 tret) s2 (year noon) (month noon) (day noon)
             0x1.98p+2%float s3)
  /\ float_value 0x1.98p+2%float
     = Some (7177611906121728 # 1125899906842624)%Q
  /\ (7177611906121728 # 1125899906842624 == 3422552064 # 536870912)%Q
  /\ 0 <= 3422552064 < 24 * 2 ^ 29
  /\ exists td : timedelta,
       outcome (canned 0 (2024, 3, 15) 0x1.98p+2%float)
         (query rise Mars noon observer64) (0%float, 0%float)
       = inr (Some td)
       /\ total_seconds td = 22950
       /\ (hours_of td <= 7177611906121728 # 1125899906842624)%Q.
Proof.
  split; [reflexivity |].
  split; [do 3 eexists; split; [canned_answers | reflexivity] |].
  split; [reflexivity |].
  split; [reflexivity |].
  split; [split; [discriminate | reflexivity] |].
  destruct (decomposition_never_exceeds rise Mars noon observer64 _
              (canned 0 (2024, 3, 15) 0x1.98p+2%float) (0%float, 0%float)
              _ _ _ 0x1.98p+2%float
              (7177611906121728 # 1125899906842624)%Q 3422552064
              eq_refl ltac:(canned_answers) eq_refl eq_refl eq_refl
              ltac:(split; [discriminate | reflexivity]))
    as (hh & mm & ss & td & Hout & Htd & Hh & Hm & _ & _ & _ & _ & _ & Htot
        & Hle & _).
  exists td; split; [exact Hout | split; [| exact Hle]].
  vm_compute in Hh; subst hh; vm_compute in Hm; subst mm.
  vm_compute in Hout; injection Hout as <-; reflexivity.
Defined.

(** Mars on 15 March, with an engine that reports the rise as not found
    (-2, as for a circumpolar body). *)
Lemma not_found_is_absent_witness :
  is_focal_point Mars = false
  /\ (exists tret s2,
        search_answers (canned (-2) (2024, 3, 15) 0.375%float) Mars noon observer64
          (kind_of rise) (0%float, 0%float) (inr (-2, tret)) s2)
  /\ -2 <> 0
  /\ outcome (canned (-2) (2024, 3, 15) 0.375%float)
       (query rise Mars noon observer64) (0%float, 0%float)
     = inr None.
Proof.
  split; [reflexivity |].
  split; [do 2 eexists; canned_answers |].
  split; [discriminate |].
  refine (proj1 (not_found_is_absent rise Mars noon observer64 _
                   (canned (-2) (2024, 3, 15) 0.375%float) (0%float, 0%float) _ (-2) _
                   eq_refl _ _));
    [canned_answers | discriminate].
Defined.

(** Mars, asked at 12:30 and at 21:05:07 of the same day. *)
Lemma search_invocation_witness :
  is_focal_point Mars = false
  /\ swe_id Mars = inr (VInt 4)
  /\ exec (canned 0 (2024, 3, 15) 0.375%float)
       (query rise Mars evening observer64) (0%float, 0%float)
     = exec (canned 0 (2024, 3, 15) 0.375%float)
         (query rise Mars noon observer64) (0%float, 0%float).
Proof.
  split; [reflexivity |].
  split; [reflexivity |].
  exact (proj1 (proj2 (proj2 (proj2
    (search_invocation rise Mars noon observer64 (VInt 4) _
       (canned 0 (2024, 3, 15) 0.375%float) (0%float, 0%float) eq_refl eq_refl)))
    evening eq_refl eq_refl eq_refl)).
Defined.

(** Sirius on a canned engine. *)
Lemma transits_are_the_four_queries_witness :
  frame_only (canned 0 (2024, 3, 15) 0.375%float)
  /\ outcome (canned 0 (2024, 3, 15) 0.375%float)
       (transits Sirius noon observer64) (0%float, 0%float)
     = (let? r := outcome (canned 0 (2024, 3, 15) 0.375%float)
                    (rises Sirius noon observer64) (0%float, 0%float) in
        let? st := outcome (canned 0 (2024, 3, 15) 0.375%float)
                     (sets Sirius noon observer64) (0%float, 0%float) in
        let? m := outcome (canned 0 (2024, 3, 15) 0.375%float)
                    (mc_trans Sirius noon observer64) (0%float, 0%float) in
        let? i := outcome (canned 0 (2024, 3, 15) 0.375%float)
                    (ic_trans Sirius noon observer64) (0%float, 0%float) in
        inr (transit_dict r st m i)).
Proof.
  split; [apply canned_frame_only |].
  exact (proj1 (transits_are_the_four_queries
                  (canned 0 (2024, 3, 15) 0.375%float) Sirius noon observer64
                  (0%float, 0%float) (canned_frame_only _ _ _))).
Defined.

(** Mars, its horizontal coordinate asked twice with a transit query in
    between. *)
Lemma coordinate_queries_repeat_witness :
  frame_only (canned 0 (2024, 3, 15) 0.375%float)
  /\ set_topo_settles (canned 0 (2024, 3, 15) 0.375%float)
  /\ never_calls swe.is_set_topo (rises Mars noon observer64)
  /\ exec (canned 0 (2024, 3, 15) 0.375%float)
       (@hor_coord float binary64 (pair_coords float) swisseph Mars noon observer64)
       (final_state (canned 0 (2024, 3, 15) 0.375%float)
          (rises Mars noon observer64)
          (final_state (canned 0 (2024, 3, 15) 0.375%float)
             (@hor_coord float binary64 (pair_coords float) swisseph Mars noon observer64)
             (0%float, 0%float)))
     = exec (canned 0 (2024, 3, 15) 0.375%float)
         (@hor_coord float binary64 (pair_coords float) swisseph Mars noon observer64)
         (0%float, 0%float).
Proof.
  split; [apply canned_frame_only |].
  split; [apply canned_set_topo_settles |].
  split; [apply rise_trans_keeps_frame |].
  exact (proj1 (proj2 (proj2
    (@coordinate_queries_repeat float binary64 (pair_coords float) swisseph Mars noon
       observer64 _ (canned 0 (2024, 3, 15) 0.375%float) (0%float, 0%float) _
       (rises Mars noon observer64)
       (canned_frame_only _ _ _) (canned_set_topo_settles _ _ _)
       (rise_trans_keeps_frame Mars noon observer64 swe.CALC_RISE))))).
Defined.

(** 12:30:00 and 12:30:59.999999 of the same day. *)
Lemma coordinates_ignore_seconds_witness :
  (year noon = year noon_later /\ month noon = month noon_later
   /\ day noon = day noon_later /\ hour noon = hour noon_later
   /\ minute noon = minute noon_later)
  /\ second noon <> second noon_later
  /\ exec (canned 0 (2024, 3, 15) 0.375%float)
       (@ecl_coord float binary64 (pair_coords float) swisseph Mars noon observer64)
       (0%float, 0%float)
     = exec (canned 0 (2024, 3, 15) 0.375%float)
         (@ecl_coord float binary64 (pair_coords float) swisseph Mars noon_later observer64)
         (0%float, 0%float).
Proof.
  split; [repeat split |].
  split; [discriminate |].
  exact (proj1
    (@coordinates_ignore_seconds float binary64 (pair_coords float) swisseph Mars noon
       noon_later observer64 _ (canned 0 (2024, 3, 15) 0.375%float) (0%float, 0%float)
       eq_refl eq_refl eq_refl eq_refl eq_refl)).
Defined.
(** The second second of the day comes back whole: 2/3600 h is returned as
    0:00:02. *)
Lemma binary64_whole_seconds_witness :
  0 <= 2 < 86400
  /\ exists td : timedelta,
       @hms float binary64 (int_div 2 3600) = inr td
       /\ 2 - 1 <= total_seconds td <= 2.
Proof.
  split; [lia |].
  apply (binary64_whole_seconds 2); lia.
Defined.

(** An object patched with the attribute [BlackSun] reads. *)
Lemma black_sun_intended_call_witness :
  getattr (setattr BS_Earth "_BlackSun__swe_code" (VInt 14))
    "_BlackSun__swe_code" = inr (VInt 14)
  /\ exists k,
       @BlackSun_swe_ecl_coord float (pair_coords float) swisseph
         (setattr BS_Earth "_BlackSun__swe_code" (VInt 14)) 2.5%float false
       = Call (swe.nod_aps_ut 2.5%float (VInt 14) 258 32770) k.
Proof.
  split; [reflexivity |].
  exact (proj1 (@black_sun_intended_call float (pair_coords float) swisseph
                  (setattr BS_Earth "_BlackSun__swe_code" (VInt 14))
                  2.5%float false (VInt 14) eq_refl)).
Defined.
End AtConcreteInputs.

(** * Further properties of the module *)

(** ** Vocabulary *)

Section CallCounting.
Context {F : Type}.

(** The calls of a trace selected by [sel]. *)
Definition count_calls (sel : swe.call F -> bool) (l : list (swe.call F)) : nat :=
  length (List.filter sel l).

(** On whatever answers, the program makes at most [n] calls selected by
    [sel]. *)
Fixpoint at_most {A} (sel : swe.call F -> bool) (n : nat) (p : Prog F A) : Prop :=
  match p with
  | Ret _ => True
  | Raise _ => True
  | Call c k =>
      if sel c
      then match n with
           | O => False
           | Datatypes.S n' => forall r, at_most sel n' (k r)
           end
      else forall r, at_most sel n (k r)
  end.

Definition any_call (c : swe.call F) : bool := true.

(** The calls of the transit search: the time reference of the day, the
    search, the conversion back. *)
Definition is_transit_call (c : swe.call F) : bool :=
  match c with
  | swe.julday _ _ _ _ => true
  | swe.rise_trans _ _ _ _ _ _ _ => true
  | swe.revjul _ => true
  | _ => false
  end.

(** The calls of a position: the observer64 frame, the time reference and the
    position function of the object's class. *)
Definition is_position_call (c : swe.call F) : bool :=
  match c with
  | swe.set_topo _ _ => true
  | swe.julday _ _ _ _ => true
  | swe.calc_ut _ _ _ => true
  | swe.nod_aps_ut _ _ _ _ => true
  | swe.fixstar_ut _ _ _ => true
  | _ => false
  end.

Definition is_azalt (c : swe.call F) : bool :=
  match c with swe.azalt _ _ _ _ _ _ => true | _ => false end.

Definition is_julday (c : swe.call F) : bool :=
  match c with swe.julday _ _ _ _ => true | _ => false end.

Definition is_revjul (c : swe.call F) : bool :=
  match c with swe.revjul _ => true | _ => false end.

(** The position function of a class: [calc_ut], [nod_aps_ut] or
    [fixstar_ut]. *)
Definition is_position_fn (c : swe.call F) : bool :=
  match c with
  | swe.calc_ut _ _ _ => true
  | swe.nod_aps_ut _ _ _ _ => true
  | swe.fixstar_ut _ _ _ => true
  | _ => false
  end.

(** The body a search call is made for. *)
Definition searches_for (body : pyval) (c : swe.call F) : Prop :=
  match c with
  | swe.rise_trans _ b _ _ _ _ _ => b = body
  | _ => True
  end.

(** On whatever answers, a value the program returns satisfies [P]. *)
Fixpoint returns_only {A} (P : A -> Prop) (p : Prog F A) : Prop :=
  match p with
  | Ret a => P a
  | Raise _ => True
  | Call c k => forall r, returns_only P (k r)
  end.
End CallCounting.

(** A duration as [timedelta] stores it when it is built from ints: no
    fraction of a second, the seconds within a day, the days within range. *)
Definition whole_seconds (td : timedelta) : Prop :=
  td_microseconds td = 0
  /\ 0 <= td_seconds td < 86400
  /\ -999999999 <= td_days td <= 999999999.

(** The same of a result that may be [None]. *)
Definition whole_seconds_or_None (r : option timedelta) : Prop :=
  match r with
  | Some td => whole_seconds td
  | None => True
  end.

(** ** Facts about counting and returning *)

Section CallFacts.
Context {F S : Type} (h : swe.engine F S).

Lemma at_most_run {A} sel (n : nat) (p : Prog F A) (s : S) :
  at_most sel n p -> (count_calls sel (calls h p s) <= n)%nat.
Proof.
  revert n s; unfold calls, count_calls.
  induction p as [a | e | c k IH]; intros n s Hp; cbn [exec];
    try (cbn; lia).
  cbn [at_most] in Hp.
  destruct (h c s) as [[msg | r] s'].
  - cbn [snd List.filter]; destruct (sel c); [| cbn; lia].
    destruct n as [| n']; [contradiction | cbn; lia].
  - pose proof (IH r) as IHr.
    destruct (exec h (k r) s') as [[o s''] tr] eqn:E; cbn [snd List.filter] in *.
    destruct (sel c).
    + destruct n as [| n']; [contradiction |].
      specialize (IHr n' s' (Hp r)); rewrite E in IHr; cbn in *; lia.
    + specialize (IHr n s' (Hp r)); rewrite E in IHr; exact IHr.
Qed.

Lemma count_any (l : list (swe.call F)) : count_calls any_call l = length l.
Proof.
  unfold count_calls; induction l as [| c l IH]; [reflexivity |].
  cbn; rewrite IH; reflexivity.
Qed.

Lemma calls_head {A} (c : swe.call F) (k : swe.resp c -> Prog F A) (s : S) :
  exists rest, calls h (Call c k) s = c :: rest.
Proof.
  unfold calls; cbn [exec].
  destruct (h c s) as [[msg | r] s']; [eexists; reflexivity |].
  destruct (exec h (k r) s') as [[o s''] tr]; eexists; reflexivity.
Qed.

Lemma returns_only_run {A} (P : A -> Prop) (p : Prog F A) (s : S) (a : A) :
  returns_only P p -> outcome h p s = inr a -> P a.
Proof.
  revert s; unfold outcome.
  induction p as [a' | e | c k IH]; intros s Hp; cbn [exec fst].
  - intros [= <-]; exact Hp.
  - discriminate.
  - destruct (h c s) as [[msg | r] s']; [discriminate |].
    specialize (IH r s' (Hp r)).
    destruct (exec h (k r) s') as [[o s''] tr]; exact IH.
Qed.
End CallFacts.

Section CountingFacts.
Context {F : Type}.

Lemma at_most_mono {A} sel (n m : nat) (p : Prog F A) :
  (n <= m)%nat -> at_most sel n p -> at_most sel m p.
Proof.
  revert n m; induction p as [a | e | c k IH]; intros n m Hnm Hp;
    cbn [at_most] in *; try exact I.
  destruct (sel c).
  - destruct n as [| n']; [contradiction |].
    destruct m as [| m']; [lia |].
    intros r; apply (IH r n' m'); [lia | apply Hp].
  - intros r; apply (IH r n m); [lia | apply Hp].
Qed.

Lemma at_most_bind {A B} sel (n m : nat) (p : Prog F A) (f : A -> Prog F B) :
  at_most sel n p -> (forall a, at_most sel m (f a)) ->
  at_most sel (n + m) (bind p f).
Proof.
  intros Hp Hf; revert n Hp.
  induction p as [a | e | c k IH]; intros n Hp; cbn [bind at_most] in *.
  - apply (at_most_mono sel m); [lia | apply Hf].
  - exact I.
  - destruct (sel c).
    + destruct n as [| n']; [contradiction |].
      intros r; apply (IH r n'), Hp.
    + intros r; apply (IH r n), Hp.
Qed.

Lemma returns_only_bind {A B} (Q : A -> Prop) (P : B -> Prop) (p : Prog F A)
  (f : A -> Prog F B) :
  returns_only Q p -> (forall a, Q a -> returns_only P (f a)) ->
  returns_only P (bind p f).
Proof.
  intros Hp Hf; induction p as [a | e | c k IH]; cbn [bind returns_only] in *.
  - apply Hf, Hp.
  - exact I.
  - intros r; apply IH, Hp.
Qed.
End CountingFacts.

(** Bounds the calls of a program written with [bind], [perform] and
    [lift] by running through it. *)
Ltac bound_calls :=
  repeat first
    [ exact I
    | progress intros
    | progress cbn [at_most bind lift perform any_call swe.is_rise_trans
                    swe.is_set_topo is_julday is_revjul is_position_fn
                    is_azalt]
    | match goal with
      | |- context [lift ?x] => destruct x
      | |- context [match ?x with _ => _ end] => destruct x
      end ].

(** ** Which engine functions a query calls, and how often *)

Section Footprints.
Context {F : Type} {PF : PyFloat F} {CO : Coords F} {K : swe.constants}.

Lemma transits_calls (P : swe.call F -> Prop) self time
  (location : GeoLocation F) :
  (forall y m d hr, P (swe.julday y m d hr)) ->
  (forall jd, P (swe.revjul jd)) ->
  (forall t b r g p q f, P (swe.rise_trans t b r g p q f)) ->
  every_call P (transits self time location).
Proof.
  intros Hjd Hrev Hrt.
  unfold transits, rises, sets, mc_trans, ic_trans.
  repeat (apply every_call_bind; [apply rise_trans_calls; assumption | intros ?]).
  exact I.
Qed.

(** On every engine and from every state: a transit query, and [transits],
    call nothing but the time reference, the search and the conversion back;
    they do not set the observer64 frame, although the search is asked for
    topocentric positions.  [ecl_coord] and [equator_coord] call nothing but
    [set_topo], the time reference and the position function of the object;
    [hor_coord] calls [azalt] besides.  No coordinate query searches for a
    transit or converts a time back, and each begins by setting the frame to
    the observer64's longitude and latitude. *)
Theorem queries_keep_to_their_calls (self : pyobj) (time : datetime)
  (location : GeoLocation F) (S : Type) (h : swe.engine F S) (s : S) :
  (forall e : event,
      Forall (fun c => is_transit_call c = true)
        (calls h (query e self time location) s))
  /\ Forall (fun c => is_transit_call c = true)
       (calls h (transits self time location) s)
  /\ Forall (fun c => is_position_call c = true)
       (calls h (ecl_coord self time location) s)
  /\ Forall (fun c => is_position_call c = true)
       (calls h (equator_coord self time location) s)
  /\ Forall (fun c => is_position_call c || is_azalt c = true)
       (calls h (hor_coord self time location) s)
  /\ (let frame := swe.set_topo (longitude_degrees location)
                                (latitude_degrees location) in
      (exists rest, calls h (ecl_coord self time location) s = frame :: rest)
      /\ (exists rest,
            calls h (equator_coord self time location) s = frame :: rest)
      /\ (exists rest,
            calls h (hor_coord self time location) s = frame :: rest)).
Proof.
  split; [| split; [| split; [| split; [| split]]]].
  - intros e; rewrite query_rise_trans.
    apply every_call_run, rise_trans_calls; reflexivity.
  - apply every_call_run, transits_calls; reflexivity.
  - apply every_call_run; unfold ecl_coord; calls_of; try reflexivity.
    apply swe_ecl_coord_calls; reflexivity.
  - apply every_call_run; unfold equator_coord; calls_of; try reflexivity.
    apply swe_equator_coord_calls; reflexivity.
  - apply every_call_run; unfold hor_coord; calls_of; try reflexivity.
    apply swe_equator_coord_calls; reflexivity.
  - unfold ecl_coord, equator_coord, hor_coord, perform; cbn [bind].
    repeat split; apply calls_head.
Qed.

Lemma rise_trans_at_most self when (location : GeoLocation F) rsmi :
  at_most any_call 3 (Celestial__rise_trans self when location rsmi)
  /\ at_most is_julday 1 (Celestial__rise_trans self when location rsmi)
  /\ at_most swe.is_rise_trans 1
       (Celestial__rise_trans self when location rsmi)
  /\ at_most is_revjul 1 (Celestial__rise_trans self when location rsmi).
Proof.
  unfold Celestial__rise_trans, day_check; repeat split; bound_calls.
Qed.

Lemma swe_ecl_coord_at_most self (jd : F) :
  at_most any_call 1 (swe_ecl_coord self jd)
  /\ at_most swe.is_set_topo 0 (swe_ecl_coord self jd)
  /\ at_most is_julday 0 (swe_ecl_coord self jd)
  /\ at_most is_position_fn 1 (swe_ecl_coord self jd).
Proof.
  unfold swe_ecl_coord, Planet_swe_ecl_coord, BlackSun_swe_ecl_coord,
    FixedCelestial_swe_ecl_coord; repeat split; bound_calls.
Qed.

Lemma swe_equator_coord_at_most self (jd : F) :
  at_most any_call 1 (swe_equator_coord self jd)
  /\ at_most swe.is_set_topo 0 (swe_equator_coord self jd)
  /\ at_most is_julday 0 (swe_equator_coord self jd)
  /\ at_most is_position_fn 1 (swe_equator_coord self jd)
  /\ at_most is_azalt 0 (swe_equator_coord self jd).
Proof.
  unfold swe_equator_coord, Planet_swe_equator_coord,
    BlackSun_swe_equator_coord, FixedCelestial_swe_equator_coord;
    repeat split; bound_calls.
Qed.

(** [transits] makes the calls of four queries. *)
Lemma transits_at_most sel (n : nat) self time (location : GeoLocation F) :
  (forall rsmi,
      at_most sel n (Celestial__rise_trans self time location rsmi)) ->
  at_most sel (n + (n + (n + (n + 0)))) (transits self time location).
Proof.
  intros Hq; unfold transits, rises, sets, mc_trans, ic_trans.
  repeat (apply at_most_bind; [apply Hq | intros ?]).
  exact I.
Qed.

Lemma coord_at_most self time (location : GeoLocation F) :
  (at_most any_call 3 (ecl_coord self time location)
   /\ at_most swe.is_set_topo 1 (ecl_coord self time location)
   /\ at_most is_julday 1 (ecl_coord self time location)
   /\ at_most is_position_fn 1 (ecl_coord self time location))
  /\ (at_most any_call 3 (equator_coord self time location)
      /\ at_most swe.is_set_topo 1 (equator_coord self time location)
      /\ at_most is_julday 1 (equator_coord self time location)
      /\ at_most is_position_fn 1 (equator_coord self time location))
  /\ (at_most any_call 4 (hor_coord self time location)
      /\ at_most swe.is_set_topo 1 (hor_coord self time location)
      /\ at_most is_julday 1 (hor_coord self time location)
      /\ at_most is_position_fn 1 (hor_coord self time location)
      /\ at_most is_azalt 1 (hor_coord self time location)).
Proof.
  unfold ecl_coord, equator_coord, hor_coord.
  repeat split;
    cbn [bind perform at_most any_call swe.is_set_topo is_julday
         is_position_fn is_azalt];
    intros _ jd;
    try apply swe_ecl_coord_at_most; try apply swe_equator_coord_at_most.
  - apply (at_most_bind any_call 1 1); [apply swe_equator_coord_at_most |].
    intros coord; bound_calls.
  - apply (at_most_bind swe.is_set_topo 0 0);
      [apply swe_equator_coord_at_most |].
    intros coord; bound_calls.
  - apply (at_most_bind is_julday 0 0); [apply swe_equator_coord_at_most |].
    intros coord; bound_calls.
  - apply (at_most_bind is_position_fn 1 0);
      [apply swe_equator_coord_at_most |].
    intros coord; bound_calls.
  - apply (at_most_bind is_azalt 0 1); [apply swe_equator_coord_at_most |].
    intros coord; bound_calls.
Qed.

(** The call budget of a query.  On every engine and from every state, a
    transit query calls [julday], [rise_trans] and [revjul] at most once
    each, three calls at most; [transits] calls each of them at most four
    times, twelve calls at most; [ecl_coord] and [equator_coord] call
    [set_topo], [julday] and a position function at most once each, three
    calls at most; [hor_coord] calls [azalt] at most once besides, four
    calls at most. *)
Theorem queries_call_budget (self : pyobj) (time : datetime)
  (location : GeoLocation F) (S : Type) (h : swe.engine F S) (s : S) :
  (forall e : event,
      let tr := calls h (query e self time location) s in
      (length tr <= 3)%nat
      /\ (count_calls is_julday tr <= 1)%nat
      /\ (count_calls swe.is_rise_trans tr <= 1)%nat
      /\ (count_calls is_revjul tr <= 1)%nat)
  /\ (let tr := calls h (transits self time location) s in
      (length tr <= 12)%nat
      /\ (count_calls is_julday tr <= 4)%nat
      /\ (count_calls swe.is_rise_trans tr <= 4)%nat
      /\ (count_calls is_revjul tr <= 4)%nat)
  /\ (let tr := calls h (ecl_coord self time location) s in
      (length tr <= 3)%nat
      /\ (count_calls swe.is_set_topo tr <= 1)%nat
      /\ (count_calls is_julday tr <= 1)%nat
      /\ (count_calls is_position_fn tr <= 1)%nat)
  /\ (let tr := calls h (equator_coord self time location) s in
      (length tr <= 3)%nat
      /\ (count_calls swe.is_set_topo tr <= 1)%nat
      /\ (count_calls is_julday tr <= 1)%nat
      /\ (count_calls is_position_fn tr <= 1)%nat)
  /\ (let tr := calls h (hor_coord self time location) s in
      (length tr <= 4)%nat
      /\ (count_calls swe.is_set_topo tr <= 1)%nat
      /\ (count_calls is_julday tr <= 1)%nat
      /\ (count_calls is_position_fn tr <= 1)%nat
      /\ (count_calls is_azalt tr <= 1)%nat).
Proof.
  destruct (coord_at_most self time location)
    as ((He & Het & Hej & Hep) & (Hq & Hqt & Hqj & Hqp)
        & (Hh & Hht & Hhj & Hhp & Hha)).
  pose proof (fun sel n Hn =>
                transits_at_most sel n self time location Hn) as Ht.
  cbv zeta; rewrite <- !count_any.
  split; [| split; [| repeat split; apply at_most_run; assumption]].
  - intros e; rewrite query_rise_trans, <- count_any.
    repeat split; apply at_most_run, rise_trans_at_most.
  - repeat split; apply at_most_run.
    + apply (Ht any_call 3%nat); intros; apply rise_trans_at_most.
    + apply (Ht is_julday 1%nat); intros; apply rise_trans_at_most.
    + apply (Ht swe.is_rise_trans 1%nat); intros; apply rise_trans_at_most.
    + apply (Ht is_revjul 1%nat); intros; apply rise_trans_at_most.
Qed.
End Footprints.

(** ** Where positions come from *)

Section Positions.
Context {F : Type} {PF : PyFloat F} {CO : Coords F} {K : swe.constants}.
Context {S : Type} (h : swe.engine F S).

(** The run of a coordinate query up to the position function. *)
Lemma exec_coord_prefix {A} (k : F -> Prog F A) (time : datetime)
  (location : GeoLocation F) (s s1 s2 : S) (u : unit) (jd : F) :
  h (swe.set_topo (longitude_degrees location) (latitude_degrees location)) s
  = (inr u, s1) ->
  h (swe.julday (year time) (month time) (day time) (hour_of time)) s1
  = (inr jd, s2) ->
  exec h (let* _ := perform (swe.set_topo (longitude_degrees location)
                                          (latitude_degrees location)) in
          let* jd := perform (swe.julday (year time) (month time) (day time)
                                         (hour_of time)) in
          k jd) s
  = let '(o, s3, tr) := exec h (k jd) s2 in
    (o, s3,
     swe.set_topo (longitude_degrees location) (latitude_degrees location)
     :: swe.julday (year time) (month time) (day time) (hour_of time)
     :: tr).
Proof.
  intros Hst Hjd; unfold perform; cbn [bind].
  rewrite (exec_call_ok h _ _ _ _ _ Hst); cbn [bind].
  rewrite (exec_call_ok h _ _ _ _ _ Hjd).
  destruct (exec h (k jd) s2) as [[o s3] tr]; reflexivity.
Qed.

(** [hor_coord] is [equator_coord] followed by one conversion.  When the
    frame is set and the time reference [jd] is answered, [hor_coord] runs as
    [equator_coord] does; if that raises, so does [hor_coord], after the same
    calls; if it returns [coord], one more call follows, [azalt] at [jd] with
    the flag EQU2HOR, the observer64 at altitude 0, pressure and temperature 0,
    and the position (ra, decl, 0) of [coord]; of its answer the azimuth and
    the true altitude make the result, and the apparent altitude is
    dropped. *)
Theorem hor_coord_extends_equator_coord (self : pyobj) (time : datetime)
  (location : GeoLocation F) (s s1 s2 : S) (u : unit) (jd : F) :
  h (swe.set_topo (longitude_degrees location) (latitude_degrees location)) s
  = (inr u, s1) ->
  h (swe.julday (year time) (month time) (day time) (hour_of time)) s1
  = (inr jd, s2) ->
  exec h (hor_coord self time location) s
  = match exec h (equator_coord self time location) s with
    | (inl e, s3, tr) => (inl e, s3, tr)
    | (inr coord, s3, tr) =>
        match h (swe.azalt jd swe.EQU2HOR
                   (longitude_degrees location, latitude_degrees location,
                    of_int 0)
                   0 0 (ra_degrees coord, decl_degrees coord, of_int 0)) s3
        with
        | (inl msg, s4) =>
            (inl (swe_Error msg), s4,
             tr ++ [swe.azalt jd swe.EQU2HOR
                      (longitude_degrees location, latitude_degrees location,
                       of_int 0)
                      0 0 (ra_degrees coord, decl_degrees coord, of_int 0)])
        | (inr (azimuth, true_alt, _), s4) =>
            (inr (HorCoord azimuth true_alt), s4,
             tr ++ [swe.azalt jd swe.EQU2HOR
                      (longitude_degrees location, latitude_degrees location,
                       of_int 0)
                      0 0 (ra_degrees coord, decl_degrees coord, of_int 0)])
        end
    end.
Proof.
  intros Hst Hjd; unfold hor_coord, equator_coord.
  rewrite !(exec_coord_prefix _ time location s s1 s2 u jd Hst Hjd).
  rewrite exec_bind.
  destruct (exec h (swe_equator_coord self jd) s2) as [[[e | coord] s3] tr];
    [reflexivity |].
  unfold perform; cbn [bind exec].
  destruct (h _ s3) as [[msg | [[azimuth true_alt] app_alt]] s4];
    cbn [exec]; reflexivity.
Qed.

(** A [Planet] as its constructor leaves it can be asked for its position:
    the code [__init__] stored (the explicit one, or the catalog's) is the
    one [swe_id()] returns and the body of the one position call, [calc_ut]
    at the time reference with the flags FLG_SWIEPH | FLG_TOPOCTR, and
    FLG_EQUATORIAL besides for [equator_coord]; the first two numbers of the
    answer make the coordinate; a failure of the call is the outcome. *)
Theorem planet_positions (name : string) (code : option Z) (self : pyobj)
  (time : datetime) (location : GeoLocation F) (s s1 s2 : S) (u : unit)
  (jd : F) :
  Planet_init name code = inr self ->
  h (swe.set_topo (longitude_degrees location) (latitude_degrees location)) s
  = (inr u, s1) ->
  h (swe.julday (year time) (month time) (day time) (hour_of time)) s1
  = (inr jd, s2) ->
  exists c : Z,
    swe_id self = inr (VInt c)
    /\ py_or code (swe_id_by_name name) = inr c
    /\ exec h (ecl_coord self time location) s
       = (let pre :=
            [swe.set_topo (longitude_degrees location)
               (latitude_degrees location);
             swe.julday (year time) (month time) (day time) (hour_of time)] in
          let q := swe.calc_ut jd (VInt c)
                     (Z.lor swe.FLG_SWIEPH swe.FLG_TOPOCTR) in
          match h q s2 with
          | (inl msg, s3) => (inl (swe_Error msg), s3, pre ++ [q])
          | (inr (x0, x1, _, _, _, _, _), s3) =>
              (inr (EclCoord x0 x1), s3, pre ++ [q])
          end)
    /\ exec h (equator_coord self time location) s
       = (let pre :=
            [swe.set_topo (longitude_degrees location)
               (latitude_degrees location);
             swe.julday (year time) (month time) (day time) (hour_of time)] in
          let q := swe.calc_ut jd (VInt c)
                     (Z.lor (Z.lor swe.FLG_SWIEPH swe.FLG_TOPOCTR)
                            swe.FLG_EQUATORIAL) in
          match h q s2 with
          | (inl msg, s3) => (inl (swe_Error msg), s3, pre ++ [q])
          | (inr (x0, x1, _, _, _, _, _), s3) =>
              (inr (EquatorCoord x0 x1), s3, pre ++ [q])
          end).
Proof.
  intros Hinit Hst Hjd; unfold Planet_init in Hinit.
  destruct (py_or code (swe_id_by_name name)) as [err | c]; cbn [ebind] in Hinit;
    [discriminate |].
  injection Hinit as <-; exists c.
  set (self := setattr _ _ (VInt c)).
  assert (Hget : getattr self (mangle "Planet" "__swe_code") = inr (VInt c))
    by apply getattr_setattr_eq.
  split; [exact Hget | split; [reflexivity |]].
  unfold ecl_coord, equator_coord.
  rewrite !(exec_coord_prefix _ time location s s1 s2 u jd Hst Hjd).
  unfold swe_ecl_coord, swe_equator_coord; cbn [class_of self setattr new].
  unfold Planet_swe_ecl_coord, Planet_swe_equator_coord, perform.
  rewrite Hget; cbn [lift bind exec].
  split.
  - destruct (h _ s2) as [[msg | [[[[[[x0 x1] x2] x3] x4] x5] rf]] s3];
      reflexivity.
  - destruct (h _ s2) as [[msg | [[[[[[x0 x1] x2] x3] x4] x5] rf]] s3];
      reflexivity.
Qed.

(** A [FixedCelestial] is built from a name and a catalog designator, with
    no look at [NAMES]; it is fixed and not a focal point, [swe_id()] is the
    designator (a string), its position is asked of [fixstar_ut] with the
    designator, the time reference and the flags FLG_SWIEPH | FLG_TOPOCTR
    (FLG_EQUATORIAL besides for [equator_coord]), and its transit searches
    are made for the designator. *)
Theorem fixed_star_queries (name designator : string) (time : datetime)
  (location : GeoLocation F) (s s1 s2 : S) (u : unit) (jd : F) :
  let self := FixedCelestial_init name designator in
  h (swe.set_topo (longitude_degrees location) (latitude_degrees location)) s
  = (inr u, s1) ->
  h (swe.julday (year time) (month time) (day time) (hour_of time)) s1
  = (inr jd, s2) ->
  is_fixed self = true
  /\ is_focal_point self = false
  /\ getattr self "name" = inr (VStr name)
  /\ swe_id self = inr (VStr designator)
  /\ exec h (ecl_coord self time location) s
     = (let pre :=
          [swe.set_topo (longitude_degrees location)
             (latitude_degrees location);
           swe.julday (year time) (month time) (day time) (hour_of time)] in
        let q := swe.fixstar_ut (VStr designator) jd
                   (Z.lor swe.FLG_SWIEPH swe.FLG_TOPOCTR) in
        match h q s2 with
        | (inl msg, s3) => (inl (swe_Error msg), s3, pre ++ [q])
        | (inr (x0, x1, _, _, _, _, _, _), s3) =>
            (inr (EclCoord x0 x1), s3, pre ++ [q])
        end)
  /\ exec h (equator_coord self time location) s
     = (let pre :=
          [swe.set_topo (longitude_degrees location)
             (latitude_degrees location);
           swe.julday (year time) (month time) (day time) (hour_of time)] in
        let q := swe.fixstar_ut (VStr designator) jd
                   (Z.lor (Z.lor swe.FLG_SWIEPH swe.FLG_TOPOCTR)
                          swe.FLG_EQUATORIAL) in
        match h q s2 with
        | (inl msg, s3) => (inl (swe_Error msg), s3, pre ++ [q])
        | (inr (x0, x1, _, _, _, _, _, _), s3) =>
            (inr (EquatorCoord x0 x1), s3, pre ++ [q])
        end)
  /\ (forall (e : event) (s' : S),
        Forall (searches_for (VStr designator))
          (calls h (query e self time location) s')).
Proof.
  intros self Hst Hjd.
  assert (Hget : getattr self (mangle "FixedCelestial" "__swe_code")
                 = inr (VStr designator)) by apply getattr_setattr_eq.
  split; [reflexivity | split; [reflexivity |]].
  split.
  { unfold self, FixedCelestial_init.
    rewrite getattr_setattr_ne by discriminate; apply getattr_setattr_eq. }
  split; [exact Hget |].
  unfold ecl_coord, equator_coord.
  rewrite !(exec_coord_prefix _ time location s s1 s2 u jd Hst Hjd).
  unfold swe_ecl_coord, swe_equator_coord;
    cbn [class_of self FixedCelestial_init setattr new].
  unfold FixedCelestial_swe_ecl_coord, FixedCelestial_swe_equator_coord, perform.
  fold self; rewrite Hget; cbn [lift bind exec].
  split; [| split].
  - destruct (h _ s2) as [[msg | [[[[[[[x0 x1] x2] x3] x4] x5] nm] rf]] s3];
      reflexivity.
  - destruct (h _ s2) as [[msg | [[[[[[[x0 x1] x2] x3] x4] x5] nm] rf]] s3];
      reflexivity.
  - intros e s'; apply every_call_run; rewrite query_rise_trans.
    assert (Hfp : is_focal_point self = false) by reflexivity.
    assert (Hid : swe_id self = inr (VStr designator)) by exact Hget.
    unfold Celestial__rise_trans; rewrite Hfp, Hid; cbn [lift bind].
    unfold day_check; calls_of; cbn [searches_for]; auto.
Qed.
End Positions.

(** ** What a transit query returns *)

Section Durations.
Context {F : Type} {PF : PyFloat F} {K : swe.constants}.

Lemma timedelta_new_whole (hh mm ss : Z) (td : timedelta) :
  timedelta_new hh mm ss = inr td -> whole_seconds td.
Proof.
  unfold timedelta_new.
  set (total := hh * 3600 + mm * 60 + ss).
  destruct (Z.abs (total / 86400) >? 999999999) eqn:E; [discriminate |].
  intros [= <-]; unfold whole_seconds; cbn [td_days td_seconds td_microseconds].
  rewrite Z.gtb_ltb in E; apply Z.ltb_ge in E.
  pose proof (Z.mod_pos_bound total 86400).
  repeat split; lia.
Qed.

Lemma hms_whole (tm : F) (td : timedelta) :
  hms tm = inr td -> whole_seconds td.
Proof.
  unfold hms.
  destruct (int_of tm) as [e | hours]; cbn [ebind]; [discriminate |].
  destruct (int_of _) as [e | int_minutes]; cbn [ebind]; [discriminate |].
  destruct (int_of _) as [e | int_seconds]; cbn [ebind]; [discriminate |].
  apply timedelta_new_whole.
Qed.

Lemma rise_trans_returns self when (location : GeoLocation F) rsmi :
  returns_only whole_seconds_or_None
    (Celestial__rise_trans self when location rsmi).
Proof.
  unfold Celestial__rise_trans, day_check.
  destruct (is_focal_point self); [exact I |].
  cbn [bind perform returns_only]; intros tjdut.
  destruct (swe_id self) as [e | body]; cbn [lift bind returns_only];
    [exact I |].
  intros [found tret].
  destruct tret as [[[[[[[[[j ?] ?] ?] ?] ?] ?] ?] ?] ?].
  destruct (negb (found =? 0)); [exact I |].
  cbn [bind perform returns_only]; intros [[[y m] d] tm].
  destruct (_ || _); [exact I |].
  destruct (hms tm) as [e | td] eqn:E; cbn [lift bind returns_only];
    [exact I |].
  exact (hms_whole tm td E).
Qed.

(** A transit time has no fraction of a second.  On every engine and from
    every state, whatever time of day the engine finds, a duration a transit
    query returns is a [timedelta] built from three ints: its microseconds
    are 0, its seconds lie within a day and its days within the range of
    [timedelta].  When [transits] returns, the mapping has the keys "rise",
    "set", "mc" and "ic" and nothing else, and every duration in it is such
    a one. *)
Theorem transit_times_are_whole_seconds (self : pyobj) (time : datetime)
  (location : GeoLocation F) (S : Type) (h : swe.engine F S) (s : S) :
  (forall (e : event) (td : timedelta),
      outcome h (query e self time location) s = inr (Some td) ->
      whole_seconds td)
  /\ (forall d : gmap string (option timedelta),
        outcome h (transits self time location) s = inr d ->
        dom d = ({["rise"; "set"; "mc"; "ic"]} : gset string)
        /\ forall (k : string) (td : timedelta),
             d !! k = Some (Some td) -> whole_seconds td).
Proof.
  split.
  - intros e td Hout; rewrite query_rise_trans in Hout.
    exact (returns_only_run h _ _ s _
             (rise_trans_returns self time location (kind_of e)) Hout).
  - intros d Hout.
    refine (returns_only_run h
              (fun d => dom d = ({["rise"; "set"; "mc"; "ic"]} : gset string)
                        /\ forall k td, d !! k = Some (Some td) ->
                                        whole_seconds td)
              (transits self time location) s d _ Hout).
    unfold transits, rises, sets, mc_trans, ic_trans.
    clear Hout d.
    assert (Hb : forall (P : gmap string (option timedelta) -> Prop) rsmi
                   (f : option timedelta -> Prog F _),
               (forall r, whole_seconds_or_None r -> returns_only P (f r)) ->
               returns_only P
                 (bind (Celestial__rise_trans self time location rsmi) f)).
    { intros P rsmi f Hf.
      exact (returns_only_bind _ P _ f
               (rise_trans_returns self time location rsmi) Hf). }
    apply Hb; intros r Hr.
    apply Hb; intros st Hst.
    apply Hb; intros m Hm.
    apply Hb; intros i Hi.
    cbn [returns_only]; split.
    + rewrite !dom_insert_L, dom_empty_L; set_solver.
    + intros k td Hk.
      destruct (decide (k = "ic")) as [-> | Nic];
        [rewrite lookup_insert_eq in Hk; injection Hk as ->; exact Hi |].
      rewrite lookup_insert_ne in Hk by congruence.
      destruct (decide (k = "mc")) as [-> | Nmc];
        [rewrite lookup_insert_eq in Hk; injection Hk as ->; exact Hm |].
      rewrite lookup_insert_ne in Hk by congruence.
      destruct (decide (k = "set")) as [-> | Nset];
        [rewrite lookup_insert_eq in Hk; injection Hk as ->; exact Hst |].
      rewrite lookup_insert_ne in Hk by congruence.
      destruct (decide (k = "rise")) as [-> | Nrise];
        [rewrite lookup_insert_eq in Hk; injection Hk as ->; exact Hr |].
      rewrite lookup_insert_ne in Hk by congruence.
      rewrite lookup_empty in Hk; discriminate.
Qed.
End Durations.

(** ** A time of day that is not a number *)

Section NotFinite.
Context {K : swe.constants}.

(** [int(tm)] is not guarded.  On doubles, when the search finds an event on
    the queried day and the engine returns a NaN as its time of day the query
    raises ValueError, and when it returns an infinity the query raises
    OverflowError: the caller gets an exception, not [None]. *)
Theorem time_of_day_not_finite (e : event) (self : pyobj) (when : datetime)
  (location : GeoLocation float) (S : Type) (h : swe.engine float S)
  (s s2 s3 : S) (tret : swe.vec10 float) (tm : float) :
  is_focal_point self = false ->
  search_answers h self when location (kind_of e) s (inr (0, tret)) s2 ->
  converts_back h (tret0 tret) s2 (year when) (month when) (day when) tm s3 ->
  (Prim2SF tm = S754_nan ->
   outcome h (query e self when location) s = inl ValueError)
  /\ (forall sign : bool,
        Prim2SF tm = S754_infinity sign ->
        outcome h (query e self when location) s = inl OverflowError).
Proof.
  intros Hf (tjdut & s1 & body & Hjd & Hid & Hrt) Hrev.
  assert (Hout : outcome h (query e self when location) s
                 = match hms tm with
                   | inl err => inl err
                   | inr td => inr (Some td)
                   end).
  { rewrite query_rise_trans; unfold outcome.
    rewrite (exec_rise_trans h _ _ _ _ _ _ _ _ _ _ Hf Hjd Hid Hrt).
    cbn [Z.eqb negb].
    rewrite (exec_day_check h _ _ _ _ _ _ _ _ Hrev).
    rewrite !Z.eqb_refl; reflexivity. }
  rewrite Hout; unfold hms; cbn [int_of binary64]; unfold float_int_of.
  split; [intros -> | intros sign ->]; reflexivity.
Qed.
End NotFinite.

(** ** The further statements at concrete inputs *)

Section FurtherAtConcreteInputs.
Local Existing Instance swisseph.

(** Mars at 12:30 on 15 March 2024: the horizontal coordinate is asked of
    [azalt] after the three calls of the equatorial one. *)
Lemma hor_coord_extends_equator_coord_witness :
  canned 0 (2024, 3, 15) 0.375%float
    (swe.set_topo (longitude_degrees observer64) (latitude_degrees observer64))
    (0%float, 0%float)
  = (inr tt, (37.75%float, 55.8125%float))
  /\ canned 0 (2024, 3, 15) 0.375%float
       (swe.julday (year noon) (month noon) (day noon) (@hour_of float binary64 noon))
       (37.75%float, 55.8125%float)
     = (inr 753048.5%float, (37.75%float, 55.8125%float))
  /\ calls (canned 0 (2024, 3, 15) 0.375%float)
       (@hor_coord float binary64 (pair_coords float) swisseph Mars noon observer64)
       (0%float, 0%float)
     = calls (canned 0 (2024, 3, 15) 0.375%float)
         (@equator_coord float binary64 (pair_coords float) swisseph Mars noon observer64)
         (0%float, 0%float)
       ++ [swe.azalt 753048.5%float 1
             (37.75%float, 55.8125%float, 0%float) 0 0
             (37.75%float, 55.8125%float, 0%float)].
Proof.
  split; [reflexivity |].
  split; [reflexivity |].
  exact (f_equal snd
    (@hor_coord_extends_equator_coord float binary64 (pair_coords float) swisseph _
       (canned 0 (2024, 3, 15) 0.375%float) Mars noon observer64
       (0%float, 0%float) _ _ tt _ eq_refl eq_refl)).
Defined.

(** [Planet("MARS")] at 12:30 on 15 March 2024. *)
Lemma planet_positions_witness :
  Planet_init "MARS" None = inr Mars
  /\ canned 0 (2024, 3, 15) 0.375%float
       (swe.set_topo (longitude_degrees observer64) (latitude_degrees observer64))
       (0%float, 0%float)
     = (inr tt, (37.75%float, 55.8125%float))
  /\ canned 0 (2024, 3, 15) 0.375%float
       (swe.julday (year noon) (month noon) (day noon) (@hour_of float binary64 noon))
       (37.75%float, 55.8125%float)
     = (inr 753048.5%float, (37.75%float, 55.8125%float))
  /\ exists c : Z,
       swe_id Mars = inr (VInt c)
       /\ py_or None (swe_id_by_name "MARS") = inr c
       /\ exec (canned 0 (2024, 3, 15) 0.375%float)
            (@ecl_coord float binary64 (pair_coords float) swisseph Mars noon observer64)
            (0%float, 0%float)
          = (inr (37.75%float, 55.8125%float), (37.75%float, 55.8125%float),
             [swe.set_topo 37.75%float 55.8125%float;
              swe.julday 2024 3 15 12.5%float;
              swe.calc_ut 753048.5%float (VInt c) 32770])
       /\ exec (canned 0 (2024, 3, 15) 0.375%float)
            (@equator_coord float binary64 (pair_coords float) swisseph Mars noon observer64)
            (0%float, 0%float)
          = (inr (37.75%float, 55.8125%float), (37.75%float, 55.8125%float),
             [swe.set_topo 37.75%float 55.8125%float;
              swe.julday 2024 3 15 12.5%float;
              swe.calc_ut 753048.5%float (VInt c) 34818]).
Proof.
  split; [reflexivity |].
  split; [reflexivity |].
  split; [reflexivity |].
  exact (@planet_positions float binary64 (pair_coords float) swisseph _
           (canned 0 (2024, 3, 15) 0.375%float) "MARS" None Mars noon observer64
           (0%float, 0%float) _ _ tt _ eq_refl eq_refl eq_refl).
Defined.

(** [FixedCelestial("Sirius", "Sirius")] at 12:30 on 15 March 2024. *)
Lemma fixed_star_queries_witness :
  canned 0 (2024, 3, 15) 0.375%float
    (swe.set_topo (longitude_degrees observer64) (latitude_degrees observer64))
    (0%float, 0%float)
  = (inr tt, (37.75%float, 55.8125%float))
  /\ canned 0 (2024, 3, 15) 0.375%float
       (swe.julday (year noon) (month noon) (day noon) (@hour_of float binary64 noon))
       (37.75%float, 55.8125%float)
     = (inr 753048.5%float, (37.75%float, 55.8125%float))
  /\ FixedCelestial_init "Sirius" "Sirius" = Sirius
  /\ swe_id Sirius = inr (VStr "Sirius")
  /\ exec (canned 0 (2024, 3, 15) 0.375%float)
       (@ecl_coord float binary64 (pair_coords float) swisseph Sirius noon observer64)
       (0%float, 0%float)
     = (inr (37.75%float, 55.8125%float), (37.75%float, 55.8125%float),
        [swe.set_topo 37.75%float 55.8125%float;
         swe.julday 2024 3 15 12.5%float;
         swe.fixstar_ut (VStr "Sirius") 753048.5%float 32770]).
Proof.
  split; [reflexivity |].
  split; [reflexivity |].
  split; [reflexivity |].
  pose proof (@fixed_star_queries float binary64 (pair_coords float) swisseph _
                (canned 0 (2024, 3, 15) 0.375%float) "Sirius" "Sirius" noon
                observer64 (0%float, 0%float) _ _ tt _ eq_refl eq_refl)
    as (_ & _ & _ & Hid & Hecl & _).
  split; [exact Hid | exact Hecl].
Defined.

(** Mars on 15 March 2024, found rising at 0.375 h: 0:22:30. *)
Lemma transit_times_are_whole_seconds_witness :
  outcome (canned 0 (2024, 3, 15) 0.375%float)
    (query rise Mars noon observer64) (0%float, 0%float)
  = inr (Some {| td_days := 0; td_seconds := 1350; td_microseconds := 0 |})
  /\ whole_seconds {| td_days := 0; td_seconds := 1350; td_microseconds := 0 |}.
Proof.
  split; [reflexivity |].
  exact (proj1 (transit_times_are_whole_seconds Mars noon observer64 _
                  (canned 0 (2024, 3, 15) 0.375%float) (0%float, 0%float))
           rise _ eq_refl).
Defined.

(** Mars on 15 March 2024, with an engine whose conversion back returns a
    NaN as the time of day. *)
Lemma time_of_day_not_finite_witness :
  is_focal_point Mars = false
  /\ (exists tret s2 s3,
        search_answers (canned 0 (2024, 3, 15) nan) Mars noon observer64
          (kind_of rise) (0%float, 0%float) (inr (0, tret)) s2
        /\ converts_back (canned 0 (2024, 3, 15) nan) (tret0 tret) s2
             (year noon) (month noon) (day noon) nan s3)
  /\ Prim2SF nan = S754_nan
  /\ outcome (canned 0 (2024, 3, 15) nan)
       (query rise Mars noon observer64) (0%float, 0%float)
     = inl ValueError.
Proof.
  split; [reflexivity |].
  split; [do 3 eexists; split; [canned_answers | reflexivity] |].
  split; [reflexivity |].
  exact (proj1 (time_of_day_not_finite rise Mars noon observer64 _
                  (canned 0 (2024, 3, 15) nan) (0%float, 0%float) _ _ _ nan
                  eq_refl ltac:(canned_answers) eq_refl)
           eq_refl).
Defined.
End FurtherAtConcreteInputs.
